(** * s3du: a shallow embedding of [s3du/main.py]

    The program lists the objects of S3 buckets into a csv cache file,
    reads the cache back as [(path, size)] pairs, builds a directory tree
    from the slash-separated paths and converts the tree to the nested
    arrays that ncdu imports.

    Python data is modelled as follows.
    - [str] is [string]; a path is split at the byte ['/'], which in
      UTF-8 never occurs inside a multi-byte character.
    - [int] is [Z].
    - A [dict] keyed by strings is an association list in insertion
      order with unique keys ([dict_get], [dict_set]): [convert_branch]
      iterates over [items()], so the order is observable.
    - A tree node [{'dirs': {...}, 'files': [...]}] is [Node dirs files].
    - A JSON-serialisable value is a [json]; a Python list of such
      values is a [list json], wrapped in [JArr] where it is an element.
    - An exception is a [Raise e] result.
    - A time ([time.time()], [st_mtime]) is a rational number of seconds.
    - The cache file is its modification time and its csv rows; the
      listing service is the sequence of its answers. Both are fields of
      a [world], which the methods of the object read and write.
    - The rows of the cache file are the rows the writer is given and
      the rows the reader yields. The text between the two, with the
      quoting of the writer, the newline translation of the text file
      and the states of the reader, is in [Csv]; [reopen] takes the rows
      written to the rows read. They are the same rows when no field
      holds a carriage return.
    - [int(s)] is modelled for ASCII strings of at most 4300 characters.
    - Files are taken to open: the directory of the cache file exists,
      and the output file can be written and is not the cache file. Of
      the failures of the listing service only the response without
      [Contents] is modelled. The modification time of a cache file
      that is written is the time of the call, which is not later than
      the time the file system records. *)

From Stdlib Require Import List String Ascii ZArith QArith Bool Lia.
From Stdlib Require Import DecimalString DecimalPos DecimalZ.
Import ListNotations.

Local Open Scope string_scope.
Local Open Scope Z_scope.
Local Open Scope list_scope.

Set Implicit Arguments.
#[local] Set Warnings "-register-all".

(** ** Results and exceptions *)

Inductive exn : Type :=
| KeyError (key : string)
| ValueError (msg : string)
| FileNotFoundError (path : string).

Inductive result (A : Type) : Type :=
| Ok (a : A)
| Raise (e : exn).

Arguments Ok {A} a.
Arguments Raise {A} e.

Definition is_ok {A : Type} (r : result A) : bool :=
  match r with Ok _ => true | Raise _ => false end.

(** ** Strings *)

Module Str.

(** [s.split("/")]: one more segment than there are slashes. *)
Fixpoint split_slash (s : string) : list string :=
  match s with
  | EmptyString => [EmptyString]
  | String c s' =>
      if Ascii.eqb c "/"%char then EmptyString :: split_slash s'
      else match split_slash s' with
           | seg :: segs => String c seg :: segs
           | [] => [String c EmptyString]
           end
  end.

(** [sep.join(parts)]. *)
Fixpoint join (sep : string) (parts : list string) : string :=
  match parts with
  | [] => EmptyString
  | [p] => p
  | p :: rest => (p ++ sep ++ join sep rest)%string
  end.

(** [s or '(unnamed)']: the empty string is falsy. *)
Definition or_unnamed (s : string) : string :=
  match s with
  | EmptyString => "(unnamed)"
  | _ => s
  end.

(** [s.endswith('/')]. *)
Fixpoint endswith_slash (s : string) : bool :=
  match s with
  | EmptyString => false
  | String c EmptyString => Ascii.eqb c "/"%char
  | String _ s' => endswith_slash s'
  end.

(** [s.startswith('/')]. *)
Definition startswith_slash (s : string) : bool :=
  match s with
  | String c _ => Ascii.eqb c "/"%char
  | EmptyString => false
  end.

End Str.

(** ** Dictionaries in insertion order *)

Module Dict.

Section WithValue.
Variable V : Type.

Definition dict : Type := list (string * V).

(** [d[k]], [None] standing for the [KeyError]. *)
Fixpoint dict_get (k : string) (d : dict) : option V :=
  match d with
  | [] => None
  | (k', v) :: d' => if String.eqb k k' then Some v else dict_get k d'
  end.

(** [k in d]. *)
Definition dict_mem (k : string) (d : dict) : bool :=
  match dict_get k d with Some _ => true | None => false end.

(** [d[k] = v]: an existing key keeps its place, a new key goes last. *)
Fixpoint dict_set (k : string) (v : V) (d : dict) : dict :=
  match d with
  | [] => [(k, v)]
  | (k', v') :: d' =>
      if String.eqb k k' then (k', v) :: d' else (k', v') :: dict_set k v d'
  end.

End WithValue.

End Dict.

Import Dict.

(** ** The directory tree of [parse_list] *)

Inductive tree : Type :=
| Node (dirs : list (string * tree)) (files : list (string * Z)).

Definition dirs (t : tree) : dict tree := let 'Node ds _ := t in ds.
Definition files (t : tree) : list (string * Z) := let 'Node _ fs := t in fs.

(** [{'dirs': {}, 'files': []}] *)
Definition empty_node : tree := Node [] [].

(** The body of the loop of [parse_list] for one file, after the split:
    walk down [path] from [r], creating the missing directories, and
    append the leaf to the node reached.

    The Python code mutates the node [r] refers to; every node is
    created by this loop and referenced from one place only, so the
    update in place is the rebuilding of the spine. [dict_set] puts a
    directory created on demand last and leaves an existing one where it
    is. *)
Fixpoint add_file (path : list string) (leaf : string * Z) (r : tree) : tree :=
  match path with
  | [] => Node (dirs r) (files r ++ [leaf])
  | em :: path' =>
      let child :=
        match dict_get em (dirs r) with
        | Some c => c
        | None => empty_node
        end in
      Node (dict_set em (add_file path' leaf child) (dirs r)) (files r)
  end.

(** [path = path.split("/"); fname = path.pop()] *)
Definition split_path (path : string) : list string * string :=
  let segs := Str.split_slash path in
  (removelast segs, last segs EmptyString).

Definition parse_step (tr : tree) (f : string * Z) : tree :=
  let '(path, size) := f in
  let '(path', fname) := split_path path in
  add_file path' (fname, size) tr.

Definition parse_list (fs : list (string * Z)) : tree :=
  fold_left parse_step fs empty_node.

(** ** The ncdu export of [convert_tree] *)

Inductive json : Type :=
| JInt (n : Z)
| JStr (s : string)
| JObj (members : list (string * json))
| JArr (items : list json).

(** [{'name': name or '(unnamed)'}] *)
Definition name_obj (name : string) : json :=
  JObj [("name", JStr (Str.or_unnamed name))].

(** [{'name': fname or '(unnamed)', 'dsize': size}] *)
Definition leaf_obj (f : string * Z) : json :=
  JObj [("name", JStr (Str.or_unnamed (fst f))); ("dsize", JInt (snd f))].

(** [convert_branch]: [res] grows by [append], first the name, then one
    array per entry of [branch['dirs']], then one object per file. *)
Fixpoint convert_branch (branch : tree) (name : string) : list json :=
  match branch with
  | Node ds fs =>
      let res := [] in
      let res := res ++ [name_obj name] in
      let res :=
        fold_left (fun res kv => let '(k, v) := kv in
                                 res ++ [JArr (convert_branch v k)]) ds res in
      let res := fold_left (fun res f => res ++ [leaf_obj f]) fs res in
      res
  end.

(** [convert_tree]; [now] is the value of [int(time.time())]. *)
Definition convert_tree (now : Z) (tr : tree) : result (list json) :=
  let ncdu := [JInt 1; JInt 0;
               JObj [("timestamp", JInt now);
                     ("progver", JStr "0.1");
                     ("progname", JStr "s3du")]] in
  match dict_get "" (dirs tr) with
  | None => Raise (KeyError "")
  | Some root => Ok (ncdu ++ [JArr (convert_branch root "S3")])
  end.

(** ** Observations on trees and exports *)

(** The node reached from [t] along the directory names [chain]. *)
Fixpoint get_node (chain : list string) (t : tree) : option tree :=
  match chain with
  | [] => Some t
  | em :: chain' =>
      match dict_get em (dirs t) with
      | Some child => get_node chain' child
      | None => None
      end
  end.

Definition has_node (chain : list string) (t : tree) : bool :=
  match get_node chain t with Some _ => true | None => false end.

(** The leaf list of the node at [chain]; empty where there is no node. *)
Definition files_at (chain : list string) (t : tree) : list (string * Z) :=
  match get_node chain t with Some n => files n | None => [] end.

(** The number of [(fname, size)] entries in all the nodes of a tree. *)
Fixpoint count_leaves (t : tree) : nat :=
  match t with
  | Node ds fs =>
      (List.length fs + list_sum (map (fun kv => let '(_, v) := kv in count_leaves v) ds))%nat
  end.

(** [q] is an initial part of [p]. *)
Fixpoint is_prefix (q p : list string) : bool :=
  match q, p with
  | [], _ => true
  | a :: q', b :: p' => String.eqb a b && is_prefix q' p'
  | _ :: _, [] => false
  end.

Fixpoint chain_eqb (q p : list string) : bool :=
  match q, p with
  | [], [] => true
  | a :: q', b :: p' => String.eqb a b && chain_eqb q' p'
  | _, _ => false
  end.

(** No ['/'] in a segment. *)
Fixpoint no_slash (s : string) : bool :=
  match s with
  | EmptyString => true
  | String c s' => negb (Ascii.eqb c "/"%char) && no_slash s'
  end.





(** ** Python's [str] and [int] on integers *)

Module Py.

(** [str(n)]: decimal digits, a minus sign for a negative number. *)
Definition str (n : Z) : string := NilZero.string_of_int (Z.to_int n).

(** White space as [int] strips it from an ASCII string: tab to
    carriage return, and the space. *)
Definition is_space (c : ascii) : bool :=
  let n := nat_of_ascii c in
  ((9 <=? n) && (n <=? 13) || (n =? 32))%nat.

Definition digit_val (c : ascii) : option Z :=
  let n := nat_of_ascii c in
  if ((48 <=? n) && (n <=? 57))%nat then Some (Z.of_nat n - 48) else None.

Fixpoint lstrip (s : string) : string :=
  match s with
  | String c s' => if is_space c then lstrip s' else s
  | EmptyString => EmptyString
  end.

Fixpoint rstrip (s : string) : string :=
  match s with
  | EmptyString => EmptyString
  | String c s' =>
      match rstrip s' with
      | EmptyString => if is_space c then EmptyString else String c EmptyString
      | r => String c r
      end
  end.

(** The digits of an integer literal, most significant first; a single
    underscore may stand between two digits. [after_digit] says that the
    character before was a digit. *)
Fixpoint digits (acc : Z) (after_digit : bool) (s : string) : option Z :=
  match s with
  | EmptyString => if after_digit then Some acc else None
  | String c s' =>
      match digit_val c with
      | Some d => digits (acc * 10 + d) true s'
      | None =>
          if Ascii.eqb c "_"%char && after_digit then digits acc false s'
          else None
      end
  end.

(** [int(s)] for an ASCII string [s] of at most 4300 characters, [None]
    standing for the [ValueError]. The decimal digits and the white
    space outside ASCII, which [int] accepts too, and its limit on the
    number of digits are not modelled. *)
Definition int (s : string) : option Z :=
  match rstrip (lstrip s) with
  | String "+"%char r => digits 0 false r
  | String "-"%char r => option_map Z.opp (digits 0 false r)
  | r => digits 0 false r
  end.

(** [bool(s)] for an optional string: [None] and [''] are falsy. *)
Definition truthy (o : option string) : bool :=
  match o with
  | Some (String _ _) => true
  | _ => false
  end.

(** [int(t)] for a time [t]: truncation. *)
Definition int_of_time (t : Q) : Z := Z.quot (Qnum t) (Zpos (Qden t)).

Definition Qltb (x y : Q) : bool := negb (Qle_bool y x).

End Py.

(** ** The cache file and the listing service *)

(** A csv file is the list of the rows that [csv.writer] wrote and that
    [csv.reader] yields, each a list of strings; the text that encodes
    the rows is the [csv] module's and is not modelled. *)
Definition row : Type := list string.

(** One entry of [res['Contents']]. *)
Record item : Type := {
  Key : string;
  Size : Z;
  StorageClass : string
}.

(** The answers of [list_objects_v2] for one bucket and prefix, in the
    order of the calls. [Contents] is optional as in the response
    dictionary. [MorePages] is an answer with a [NextContinuationToken],
    and its tail is what the service answers to that token. *)
Inductive listing : Type :=
| LastPage (Contents : option (list item))
| MorePages (Contents : option (list item)) (rest : listing).

(** The file [self.filename]. *)
Inductive out_file_state : Type :=
| Absent
| EmptyFile
| JsonFile (ncdu : list json).

Record world : Type := {
  now : Q;                                  (* time.time() *)
  cache : option (Q * list row);            (* the cache file: st_mtime and rows *)
  s3_buckets : list string;                 (* the names s3.list_buckets() gives *)
  s3_objects : string -> string -> listing; (* by bucket and prefix *)
  stdout : list string;                     (* the lines printed, oldest first *)
  out_file : out_file_state;
  ncdu_installed : bool
}.

(** The attributes of an [s3du] object. *)
Record s3du : Type := {
  csv_name : string;
  classes : list string;
  verbose : bool;
  interactive : bool;
  filename : string;
  keep_file : bool;
  nocache : bool;
  storage_class : option string;
  bucket : option string;
  prefix : string
}.

(** The parsed command line. *)
Record args : Type := {
  arg_bucket : option string;
  arg_prefix : option string;
  arg_interactive : bool;
  arg_verbose : bool;
  arg_storage_class : option string;
  arg_no_cache : bool;
  arg_filename : option string
}.

Definition STORAGE_CLASSES : list string :=
  ["STANDARD"; "STANDARD_IA"; "GLACIER"; "DEEP_ARCHIVE"].

(** ** Methods: a state and exception monad

    A method runs on the object and the world and returns a value or
    raises; what it did to the world before raising stays done. *)

Definition state : Type := s3du * world.

Definition M (A : Type) : Type := state -> result A * state.

Definition ret {A : Type} (a : A) : M A := fun st => (Ok a, st).

Definition bind {A B : Type} (m : M A) (k : A -> M B) : M B :=
  fun st =>
    match m st with
    | (Ok a, st') => k a st'
    | (Raise e, st') => (Raise e, st')
    end.

Definition raise {A : Type} (e : exn) : M A := fun st => (Raise e, st).

Definition self : M s3du := fun st => (Ok (fst st), st).

Definition the_world : M world := fun st => (Ok (snd st), st).

Definition set_world (w : world) : M unit := fun st => (Ok tt, (fst st, w)).

Definition lift {A : Type} (r : result A) : M A := fun st => (r, st).

Declare Scope method_scope.
Delimit Scope method_scope with method.
Notation "x <- m ;; k" := (bind m (fun x => k))
  (at level 61, m at next level, right associativity) : method_scope.
Notation "m ;; k" := (bind m (fun _ => k))
  (at level 61, right associativity) : method_scope.
Local Open Scope method_scope.

Definition when (b : bool) (m : M unit) : M unit := if b then m else ret tt.

(** [print(line)] *)
Definition print (line : string) : M unit :=
  w <- the_world ;;
  set_world {| now := now w; cache := cache w; s3_buckets := s3_buckets w;
               s3_objects := s3_objects w; stdout := stdout w ++ [line];
               out_file := out_file w; ncdu_installed := ncdu_installed w |}.

Definition set_cache (c : option (Q * list row)) : M unit :=
  w <- the_world ;;
  set_world {| now := now w; cache := c; s3_buckets := s3_buckets w;
               s3_objects := s3_objects w; stdout := stdout w;
               out_file := out_file w; ncdu_installed := ncdu_installed w |}.

Definition set_out_file (f : out_file_state) : M unit :=
  w <- the_world ;;
  set_world {| now := now w; cache := cache w; s3_buckets := s3_buckets w;
               s3_objects := s3_objects w; stdout := stdout w;
               out_file := f; ncdu_installed := ncdu_installed w |}.

(** [writer.writerow(r)] on the cache file opened for writing: the row
    is kept as the writer is given it, and [Csv.row_text] is the text
    that goes to the file. *)
Definition writerow (r : row) : M unit :=
  w <- the_world ;;
  match cache w with
  | Some (mtime, rows) => set_cache (Some (mtime, rows ++ [r]))
  | None => set_cache (Some (now w, [r]))
  end.

(** ** The methods of [s3du] *)

(** [__init__]: [csv] is the expansion of ['~/.cache/s3du-cache.csv'] and
    [tmp] the name [tempfile.mkstemp] returns when no output file name
    was given; [mkstemp] creates that file. *)
Definition init (a : args) (csv tmp : string) (w : world) : state :=
  let prefix0 := if Py.truthy (arg_prefix a)
                 then match arg_prefix a with Some p => p | None => "" end
                 else "" in
  let prefix1 := if Py.truthy (Some prefix0) && negb (Str.endswith_slash prefix0)
                 then (prefix0 ++ "/")%string else prefix0 in
  let given := Py.truthy (arg_filename a) in
  ({| csv_name := csv;
      classes := [];
      verbose := arg_verbose a;
      interactive := arg_interactive a;
      filename := if given
                  then match arg_filename a with Some f => f | None => "" end
                  else tmp;
      keep_file := match arg_filename a with Some _ => true | None => false end;
      nocache := arg_no_cache a;
      storage_class := arg_storage_class a;
      bucket := arg_bucket a;
      prefix := prefix1 |},
   {| now := now w; cache := cache w; s3_buckets := s3_buckets w;
      s3_objects := s3_objects w; stdout := stdout w;
      out_file := if given then out_file w else EmptyFile;
      ncdu_installed := ncdu_installed w |}).

Definition list_buckets : M (list string) :=
  s <- self ;;
  if Py.truthy (bucket s)
  then ret [match bucket s with Some b => b | None => "" end]
  else w <- the_world ;; ret (s3_buckets w).

(** The test at the head of [cache_files], on [self.nocache], the time
    [t] and the cache file [c]:
    [os.path.exists(csv_name) and not nocache], then
    [time.time() - os.stat(csv_name).st_mtime < 3600]. *)
Definition fresh (nocache : bool) (t : Q) (c : option (Q * list row)) : bool :=
  match c with
  | Some (mtime, _) => negb nocache && Py.Qltb (t - mtime) 3600
  | None => false
  end.

Definition cache_is_fresh (s : s3du) (w : world) : bool :=
  fresh (nocache s) (now w) (cache w).

(** The row [[bucket, item['Key'], item['Size'], item['StorageClass']]]
    as [writerow] writes it: the size goes through [str]. *)
Definition record_row (bucket : string) (it : item) : row :=
  [bucket; Key it; Py.str (Size it); StorageClass it].

(** [for item in res['Contents']: writer.writerow(...); count += 1] *)
Fixpoint write_items (bucket : string) (items : list item) (count : Z) : M Z :=
  match items with
  | [] => ret count
  | it :: items' =>
      writerow (record_row bucket it) ;;
      write_items bucket items' (count + 1)
  end.

(** [res['Contents']] *)
Definition get_contents (contents : option (list item)) : M (list item) :=
  match contents with
  | Some items => ret items
  | None => raise (KeyError "Contents")
  end.

(** The [while True] loop of [cache_files] over the pages of a bucket. *)
Fixpoint write_pages (bucket uri : string) (pages : listing) (count : Z) : M Z :=
  match pages with
  | LastPage contents =>
      items <- get_contents contents ;;
      write_items bucket items count
  | MorePages contents rest =>
      items <- get_contents contents ;;
      count <- write_items bucket items count ;;
      s <- self ;;
      when (verbose s)
        (print ("Listing bucket " ++ uri ++ ", found " ++ Py.str count
                ++ " files already...")%string) ;;
      write_pages bucket uri rest count
  end.

(** [for bucket in buckets] *)
Fixpoint write_buckets (buckets : list string) (count : Z) : M Z :=
  match buckets with
  | [] => ret count
  | b :: buckets' =>
      s <- self ;;
      when (verbose s)
        (print ("Listing bucket " ++ b ++ ", found " ++ Py.str count
                ++ " files already...")%string) ;;
      w <- the_world ;;
      count <- write_pages b ("s3://" ++ b ++ "/" ++ prefix s)%string
                 (s3_objects w b (prefix s)) count ;;
      write_buckets buckets' count
  end.

(** The listing step of [cache_files]: the file is opened for writing,
    which empties it, and the buckets are listed into it. The directory
    of the file is taken to exist, so that [open] returns. *)
Definition refresh_cache : M unit :=
  w <- the_world ;;
  set_cache (Some (now w, [])) ;;
  buckets <- list_buckets ;;
  _ <- write_buckets buckets 0 ;;
  ret tt.

Definition cache_files : M unit :=
  s <- self ;;
  w <- the_world ;;
  if cache_is_fresh s w
  then print ("Using file list from cache: " ++ csv_name s)%string
  else refresh_cache.

(** [self.storage_class and self.storage_class != sclass] *)
Definition skipped (sc : option string) (sclass : string) : bool :=
  Py.truthy sc
  && negb (String.eqb (match sc with Some c => c | None => "" end) sclass).

(** The loop of [list_files] over the rows of the cache file; the two
    [ValueError]s are the failed unpacking of a row into four names and
    the failed [int(size)]. *)
Fixpoint read_rows (sc : option string) (rows : list row)
    (files : list (string * Z)) : result (list (string * Z)) :=
  match rows with
  | [] => Ok files
  | r :: rows' =>
      match r with
      | [bucket; key; size; sclass] =>
          if skipped sc sclass
          then read_rows sc rows' files
          else
            let path := ("/" ++ bucket ++ "/" ++ key)%string in
            match Py.int size with
            | Some n => read_rows sc rows' (files ++ [(path, n)])
            | None => Raise (ValueError "invalid literal for int() with base 10")
            end
      | _ => Raise (ValueError "values to unpack (expected 4)")
      end
  end.

Definition list_files : M (list (string * Z)) :=
  s <- self ;;
  w <- the_world ;;
  match cache w with
  | None => raise (FileNotFoundError (csv_name s))
  | Some (_, rows) => lift (read_rows (storage_class s) rows [])
  end.

(** [subprocess.Popen(['ncdu', '-f', self.filename]).wait()] *)
Definition run_ncdu : M unit :=
  w <- the_world ;;
  if ncdu_installed w then ret tt else raise (FileNotFoundError "ncdu").

Definition closing_message (s : s3du) : string :=
  ("Found objects of classes: " ++ Str.join ", " (classes s) ++ ".")%string.

(** [main]; [open(self.filename, "w")] is taken to return, and the
    output file not to be the cache file. *)
Definition main : M unit :=
  cache_files ;;
  fs <- list_files ;;
  let tr := parse_list fs in
  w <- the_world ;;
  ncdu <- lift (convert_tree (Py.int_of_time (now w)) tr) ;;
  set_out_file (JsonFile ncdu) ;;
  run_ncdu ;;
  s <- self ;;
  when (negb (keep_file s)) (set_out_file Absent) ;;
  print (closing_message s).

(** [s3du(args).main()] *)
Definition run (a : args) (csv tmp : string) (w : world) : result unit * state :=
  main (init a csv tmp w).

(** ** Observations on the cache and the listing *)

(** The world [w] with another cache file and other printed lines. *)
Definition updated (c : option (Q * list row)) (out : list string)
    (w : world) : world :=
  {| now := now w; cache := c; s3_buckets := s3_buckets w;
     s3_objects := s3_objects w; stdout := out;
     out_file := out_file w; ncdu_installed := ncdu_installed w |}.

(** The items of all the pages of a listing, when every page has its
    [Contents]. *)
Fixpoint page_items (pages : listing) : option (list item) :=
  match pages with
  | LastPage contents => contents
  | MorePages contents rest =>
      match contents, page_items rest with
      | Some items, Some items' => Some (items ++ items')
      | _, _ => None
      end
  end.

(** The objects of the buckets, each with its bucket, in listing order. *)
Fixpoint listed (objects : string -> listing) (buckets : list string)
  : option (list (string * item)) :=
  match buckets with
  | [] => Some []
  | b :: buckets' =>
      match page_items (objects b), listed objects buckets' with
      | Some items, Some recs => Some (map (pair b) items ++ recs)
      | _, _ => None
      end
  end.

(** The buckets [cache_files] lists: [self.bucket] or all of them. *)
Definition buckets_of (s : s3du) (w : world) : list string :=
  if Py.truthy (bucket s)
  then [match bucket s with Some b => b | None => "" end]
  else s3_buckets w.

(** The row of an object and the pair [list_files] returns for it. *)
Definition row_of (r : string * item) : row := record_row (fst r) (snd r).

Definition entry_of (r : string * item) : string * Z :=
  (("/" ++ fst r ++ "/" ++ Key (snd r))%string, Size (snd r)).

(** A row that does not unpack into four names. *)
Definition wrong_arity (r : row) : Prop := List.length r <> 4%nat.

(** The size field of a row of four fields is not an integer literal. *)
Definition bad_size (r : row) : Prop := Py.int (nth 2 r "") = None.

(** A method leaves the object as it is. *)
Definition keeps_self {A : Type} (m : M A) : Prop :=
  forall st, fst (snd (m st)) = fst st.

(** The directory chain the builder would use if only the non-empty
    segments before the file name counted. *)
Definition nonempty_segments (path : string) : list string :=
  filter (fun seg => negb (String.eqb seg "")) (fst (split_path path)).

(** ** A sample bucket *)

Definition sample_items : list item :=
  [ {| Key := "dir/a.txt"; Size := 10; StorageClass := "STANDARD" |};
    {| Key := "dir/b.txt"; Size := 20; StorageClass := "GLACIER" |};
    {| Key := "c.txt"; Size := 5; StorageClass := "STANDARD" |} ].

Definition sample_records : list (string * item) := map (pair "b") sample_items.

(** No cache file yet; one bucket ["b"] listed in two pages. *)
Definition sample_world : world :=
  {| now := 7200;
     cache := None;
     s3_buckets := ["b"];
     s3_objects := fun _ _ =>
       MorePages (Some (firstn 2 sample_items))
                 (LastPage (Some (skipn 2 sample_items)));
     stdout := [];
     out_file := Absent;
     ncdu_installed := true |}.

(** [s3du -v] and [s3du -v -c CLASS]. *)
Definition sample_args (sc : option string) : args :=
  {| arg_bucket := None; arg_prefix := None; arg_interactive := false;
     arg_verbose := true; arg_storage_class := sc; arg_no_cache := false;
     arg_filename := None |}.

Definition sample_state (sc : option string) (w : world) : state :=
  init (sample_args sc) "/home/user/.cache/s3du-cache.csv" "/tmp/s3du_0" w.

(** The same with a bucket that holds no object: the response of
    [list_objects_v2] has no [Contents] then. *)
Definition empty_bucket_world : world :=
  {| now := 7200;
     cache := None;
     s3_buckets := ["b"];
     s3_objects := fun _ _ => LastPage None;
     stdout := [];
     out_file := Absent;
     ncdu_installed := true |}.

(** ** Further observations *)

(** The directory chain under which [parse_list] stores a pair, and the
    leaf it stores there. *)
Definition chain_of (f : string * Z) : list string := fst (split_path (fst f)).

Definition leaf_of (f : string * Z) : string * Z :=
  (snd (split_path (fst f)), snd f).

(** The directory names of the node at [chain], in the order of the
    dictionary; none where there is no node. *)
Definition keys_at (chain : list string) (t : tree) : list string :=
  match get_node chain t with Some n => map fst (dirs n) | None => [] end.

(** The segment of [p] that follows [q], when [q] is an initial part of
    [p] and shorter. *)
Fixpoint next_seg (q p : list string) : option string :=
  match q, p with
  | [], em :: _ => Some em
  | a :: q', b :: p' => if String.eqb a b then next_seg q' p' else None
  | _, [] => None
  end.

(** A list of names with [k] put last unless it is there already. *)
Definition add_key (ks : list string) (k : string) : list string :=
  if existsb (String.eqb k) ks then ks else ks ++ [k].

(** The names seen after one more pair, for the node at [q]. *)
Definition see_dir (q : list string) (ks : list string) (f : string * Z)
  : list string :=
  match next_seg q (chain_of f) with
  | Some em => add_key ks em
  | None => ks
  end.

(** No node of the tree has two directories of one name. *)
Fixpoint unique_dirs (t : tree) : Prop :=
  match t with
  | Node ds _ =>
      NoDup (map fst ds)
      /\ fold_right (fun kv rest => let '(_, v) := kv in unique_dirs v /\ rest)
           True ds
  end.



(** The ['dsize'] members of the objects of an export at any depth,
    added up, and the number of objects that have one. *)
Fixpoint dsize_total (j : json) : Z :=
  match j with
  | JArr items => fold_right Z.add 0 (map dsize_total items)
  | JObj members =>
      match dict_get "dsize" members with
      | Some (JInt n) => n
      | _ => 0
      end
  | _ => 0
  end.


(** The world [w] with another cache file, other printed lines and
    another output file. *)
Definition world_with (c : option (Q * list row)) (out : list string)
    (f : out_file_state) (w : world) : world :=
  {| now := now w; cache := c; s3_buckets := s3_buckets w;
     s3_objects := s3_objects w; stdout := out;
     out_file := f; ncdu_installed := ncdu_installed w |}.

(** A method keeps a property of the state, whether it returns or
    raises. *)
Definition preserves {A : Type} (P : state -> Prop) (m : M A) : Prop :=
  forall st, P st -> P (snd (m st)).

(** The cache file was written at the time [t]. *)
Definition stamped (t : Q) (st : state) : Prop :=
  now (snd st) = t /\ exists rows, cache (snd st) = Some (t, rows).

(** The state is [(s, w)] but for the cache file and the printed lines. *)
Definition cache_and_stdout_of (s : s3du) (w : world) (st : state) : Prop :=
  exists c out, st = (s, updated c out w).

(** ** More samples *)


(** [s3du -b b -p dir]. *)
Definition bucket_args : args :=
  {| arg_bucket := Some "b"; arg_prefix := Some "dir"; arg_interactive := false;
     arg_verbose := false; arg_storage_class := None; arg_no_cache := false;
     arg_filename := None |}.

(** ** The text of the cache file

    [csv.writer(f)] and [csv.reader(f)] with the default dialect
    ([excel]: the comma as delimiter, the double quote as quote
    character, [doublequote], [QUOTE_MINIMAL], line terminator [\r\n],
    not [strict]), on a file
    opened in text mode without [newline=''] on a POSIX system: written
    text goes to the file as it is, and on reading every [\r\n] and
    every other [\r] becomes [\n]. The reader is the one of Python 3.11,
    which takes a NUL as any other character. *)

Module Csv.

Definition quotechar : ascii := "034"%char.
Definition delimiter : ascii := ","%char.
Definition CR : ascii := "013"%char.
Definition LF : ascii := "010"%char.

(** [csv.field_size_limit()] *)
Definition field_size_limit : N := 131072%N.

(** A character that makes the writer quote the field: the delimiter,
    the quote character, and the characters of the line terminator. *)
Definition needs_quote (c : ascii) : bool :=
  Ascii.eqb c delimiter || Ascii.eqb c quotechar
  || Ascii.eqb c CR || Ascii.eqb c LF.

Fixpoint has (p : ascii -> bool) (s : string) : bool :=
  match s with
  | EmptyString => false
  | String c s' => p c || has p s'
  end.

(** The characters of a field as the writer copies them: a quote
    character is doubled. *)
Fixpoint body (f : string) : string :=
  match f with
  | EmptyString => EmptyString
  | String c f' =>
      if Ascii.eqb c quotechar
      then String quotechar (String quotechar (body f'))
      else String c (body f')
  end.

Definition field_text (f : string) : string :=
  if has needs_quote f
  then String quotechar (body f ++ String quotechar EmptyString)
  else body f.

(** [writer.writerow(r)]: the fields joined by the delimiter, a single
    empty field written as two quote characters, and the line
    terminator. *)
Definition row_text (r : row) : string :=
  let rec := Str.join "," (map field_text r) in
  let rec := match r, rec with
             | _ :: _, EmptyString =>
                 String quotechar (String quotechar EmptyString)
             | _, _ => rec
             end in
  (rec ++ String CR (String LF EmptyString))%string.

(** The text of a file into which the rows were written in turn. *)
Fixpoint rows_text (rows : list row) : string :=
  match rows with
  | [] => EmptyString
  | r :: rows' => (row_text r ++ rows_text rows')%string
  end.

(** Reading in text mode with universal newlines. *)
Fixpoint universal_newlines (s : string) : string :=
  match s with
  | EmptyString => EmptyString
  | String c s' =>
      if Ascii.eqb c CR
      then String LF
             match s' with
             | String c' s'' =>
                 if Ascii.eqb c' LF then universal_newlines s''
                 else universal_newlines s'
             | EmptyString => EmptyString
             end
      else String c (universal_newlines s')
  end.

(** The states of the reader ([ParserState]); those of an escape
    character do not occur, the dialect has none. *)
Inductive ParserState : Type :=
| START_RECORD
| START_FIELD
| IN_FIELD
| IN_QUOTED_FIELD
| QUOTE_IN_QUOTED_FIELD
| EAT_CRNL.

Record parser : Type := {
  pstate : ParserState;
  field : string;          (* the characters of the field being read *)
  fields : list string     (* the fields of the record read so far *)
}.

(** [parse_reset] *)
Definition reset : parser :=
  {| pstate := START_RECORD; field := EmptyString; fields := [] |}.

Definition goto (st : ParserState) (p : parser) : parser :=
  {| pstate := st; field := field p; fields := fields p |}.

(** [parse_add_char]; [None] stands for [csv.Error], raised for a field
    larger than the limit. *)
Definition parse_add_char (p : parser) (c : ascii) : option parser :=
  if (field_size_limit <=? N.of_nat (String.length (field p)))%N then None
  else Some {| pstate := pstate p;
               field := (field p ++ String c EmptyString)%string;
               fields := fields p |}.

(** [parse_save_field] *)
Definition parse_save_field (p : parser) : parser :=
  {| pstate := pstate p; field := EmptyString;
     fields := fields p ++ [field p] |}.

Definition is_newline (c : ascii) : bool := Ascii.eqb c LF || Ascii.eqb c CR.

(** The end of a field at the end of a line: [c] is a newline character
    or, as [None], the end of the line. *)
Definition end_of_line (p : parser) (c : option ascii) : parser :=
  goto (match c with None => START_RECORD | Some _ => EAT_CRNL end)
       (parse_save_field p).

Definition start_field (p : parser) (c : option ascii) : option parser :=
  match c with
  | None => Some (end_of_line p c)
  | Some ch =>
      if is_newline ch then Some (end_of_line p c)
      else if Ascii.eqb ch quotechar then Some (goto IN_QUOTED_FIELD p)
      else if Ascii.eqb ch delimiter then Some (parse_save_field p)
      else option_map (goto IN_FIELD) (parse_add_char p ch)
  end.

(** [parse_process_char]; [None] as a character is the end of a line. *)
Definition parse_process_char (p : parser) (c : option ascii) : option parser :=
  match pstate p with
  | START_RECORD =>
      match c with
      | None => Some p
      | Some ch =>
          if is_newline ch then Some (goto EAT_CRNL p)
          else start_field (goto START_FIELD p) c
      end
  | START_FIELD => start_field p c
  | IN_FIELD =>
      match c with
      | None => Some (end_of_line p c)
      | Some ch =>
          if is_newline ch then Some (end_of_line p c)
          else if Ascii.eqb ch delimiter
               then Some (goto START_FIELD (parse_save_field p))
               else parse_add_char p ch
      end
  | IN_QUOTED_FIELD =>
      match c with
      | None => Some p
      | Some ch =>
          if Ascii.eqb ch quotechar then Some (goto QUOTE_IN_QUOTED_FIELD p)
          else parse_add_char p ch
      end
  | QUOTE_IN_QUOTED_FIELD =>
      match c with
      | None => Some (end_of_line p c)
      | Some ch =>
          if Ascii.eqb ch quotechar
          then option_map (goto IN_QUOTED_FIELD) (parse_add_char p ch)
          else if Ascii.eqb ch delimiter
               then Some (goto START_FIELD (parse_save_field p))
               else if is_newline ch then Some (end_of_line p c)
                    else option_map (goto IN_FIELD) (parse_add_char p ch)
      end
  | EAT_CRNL =>
      match c with
      | None => Some (goto START_RECORD p)
      | Some ch => if is_newline ch then Some p else None
      end
  end.

Definition at_start (p : parser) : bool :=
  match pstate p with START_RECORD => true | _ => false end.

(** The end of the input inside a record: the record is given when a
    field has characters or a quoted field is open. *)
Definition end_of_input (p : parser) : list row :=
  if at_start p then []
  else if negb (N.of_nat (String.length (field p)) =? 0)%N
          || match pstate p with IN_QUOTED_FIELD => true | _ => false end
       then [fields (parse_save_field p)]
       else [].

(** The rows the reader yields from the text of the file, line by line,
    and whether it then raises [csv.Error]. [pending] says that the
    current line has characters. A record is given when a line ends
    with the parser at the start of a record, and the parser is reset
    for the next one. *)
Fixpoint read_lines (p : parser) (pending : bool) (text : string)
  : list row * bool :=
  match text with
  | EmptyString =>
      if pending
      then match parse_process_char p None with
           | None => ([], true)
           | Some p' =>
               if at_start p' then ([fields p'], false)
               else (end_of_input p', false)
           end
      else (end_of_input p, false)
  | String c text' =>
      match parse_process_char p (Some c) with
      | None => ([], true)
      | Some p1 =>
          if Ascii.eqb c LF
          then match parse_process_char p1 None with
               | None => ([], true)
               | Some p2 =>
                   if at_start p2
                   then let '(rows, raised) := read_lines reset false text' in
                        (fields p2 :: rows, raised)
                   else read_lines p2 false text'
               end
          else read_lines p1 true text'
      end
  end.

(** [list(csv.reader(f))] for a file with the text [text]. *)
Definition reader (text : string) : list row * bool :=
  read_lines reset false (universal_newlines text).

(** What is read back from the file into which the rows were written. *)
Definition reread (rows : list row) : list row * bool :=
  reader (rows_text rows).

(** No carriage return in the field, and no more characters than the
    reader takes. *)
Definition plain_field (f : string) : Prop :=
  has (fun c => Ascii.eqb c CR) f = false
  /\ (N.of_nat (String.length f) <= field_size_limit)%N.

(** The facts about the reader are stated with these. *)
Definition is_cr (c : ascii) : bool := Ascii.eqb c CR.

(** The record of a row and the lines of a file as the reader gets
    them: [\n] for every line terminator. *)
Definition rec_text (r : row) : string :=
  match r, Str.join "," (map field_text r) with
  | _ :: _, EmptyString => String quotechar (String quotechar EmptyString)
  | _, rec => rec
  end.

Fixpoint lines_text (rows : list row) : string :=
  match rows with
  | [] => EmptyString
  | r :: rows' => (rec_text r ++ String LF (lines_text rows'))%string
  end.

(** The parser in a state, with the field and the fields read. *)
Definition mk (st : ParserState) (f : string) (fs : list string) : parser :=
  {| pstate := st; field := f; fields := fs |}.

(** A field without a carriage return, and a parser that holds none. *)
Definition no_cr (f : string) : Prop := has is_cr f = false.

Definition clean (p : parser) : Prop :=
  no_cr (field p) /\ Forall no_cr (fields p).

End Csv.

(** An object whose bucket, key and storage class are plain fields and
    whose size [str] writes with at most 4300 characters. *)
Definition plain_record (r : string * item) : Prop :=
  Csv.plain_field (fst r) /\ Csv.plain_field (Key (snd r))
  /\ Csv.plain_field (StorageClass (snd r))
  /\ (String.length (Py.str (Size (snd r))) <= 4300)%nat.

(** The size field of a row is ASCII text of at most 4300 characters,
    for which [Py.int] is [int]. *)
Definition plain_size (r : row) : Prop :=
  Csv.has (fun c => (128 <=? nat_of_ascii c)%nat) (nth 2 r "") = false
  /\ (String.length (nth 2 r "") <= 4300)%nat.

(** The world at another time. *)
Definition later (t : Q) (w : world) : world :=
  {| now := t; cache := cache w; s3_buckets := s3_buckets w;
     s3_objects := s3_objects w; stdout := stdout w;
     out_file := out_file w; ncdu_installed := ncdu_installed w |}.

(** The cache file closed after writing and opened again for reading:
    its rows are then those the reader yields from the text the writer
    wrote. *)
Definition reopen (w : world) : world :=
  updated (option_map (fun c => (fst c, fst (Csv.reread (snd c)))) (cache w))
          (stdout w) w.

(** [s3du -v -f out.json] *)
Definition named_args : args :=
  {| arg_bucket := None; arg_prefix := None; arg_interactive := false;
     arg_verbose := true; arg_storage_class := None; arg_no_cache := false;
     arg_filename := Some "out.json" |}.

(** * Properties *)

(** ** Dictionaries *)

Section DictFacts.
Variable V : Type.
Implicit Types (d : dict V) (k : string) (v : V).

Lemma dict_get_set_same k v d : dict_get k (dict_set k v d) = Some v.
Proof.
  induction d as [|[k' v'] d IH]; simpl.
  - now rewrite String.eqb_refl.
  - destruct (String.eqb k k') eqn:E; simpl; rewrite E; auto.
Qed.

Lemma dict_get_set_other k k' v d :
  String.eqb k' k = false -> dict_get k' (dict_set k v d) = dict_get k' d.
Proof.
  intros Hne. induction d as [|[k0 v0] d IH]; simpl.
  - now rewrite Hne.
  - destruct (String.eqb k k0) eqn:E; simpl.
    + apply String.eqb_eq in E. subst k0. now rewrite Hne.
    + now rewrite IH.
Qed.

Lemma dict_get_In k v d : dict_get k d = Some v -> In (k, v) d.
Proof.
  induction d as [|[k' v'] d IH]; simpl; [discriminate|].
  destruct (String.eqb k k') eqn:E.
  - apply String.eqb_eq in E. intros [= ->]. subst. now left.
  - intros H. right. auto.
Qed.

(** The weights of a dictionary's values add up as the update says. *)
Lemma dict_set_sum (f : V -> nat) k v d :
  (list_sum (map (fun kv => f (snd kv)) (dict_set k v d))
   + match dict_get k d with Some c => f c | None => 0 end
   = list_sum (map (fun kv => f (snd kv)) d) + f v)%nat.
Proof.
  induction d as [|[k' v'] d IH]; simpl.
  - lia.
  - destruct (String.eqb k k') eqn:E; simpl; lia.
Qed.

End DictFacts.

(** ** Splitting a path *)

Lemma split_slash_nonempty s : Str.split_slash s <> [].
Proof.
  destruct s as [|c s]; simpl; [discriminate|].
  destruct (Ascii.eqb c "/"); [discriminate|].
  destruct (Str.split_slash s); discriminate.
Qed.

Lemma join_cons sep p q rest :
  Str.join sep (p :: q :: rest) = (p ++ sep ++ Str.join sep (q :: rest))%string.
Proof. reflexivity. Qed.

Lemma join_split_slash s : Str.join "/" (Str.split_slash s) = s.
Proof.
  induction s as [|c s IH]; simpl; [reflexivity|].
  destruct (Ascii.eqb c "/") eqn:E.
  - apply Ascii.eqb_eq in E. subst c.
    destruct (Str.split_slash s) as [|seg segs] eqn:Es.
    + now apply split_slash_nonempty in Es.
    + rewrite join_cons, IH. reflexivity.
  - destruct (Str.split_slash s) as [|seg segs] eqn:Es.
    + now apply split_slash_nonempty in Es.
    + destruct segs as [|seg' segs].
      * simpl in *. now rewrite IH.
      * rewrite join_cons in *. rewrite <- IH. reflexivity.
Qed.

Lemma split_slash_no_slash s : forallb no_slash (Str.split_slash s) = true.
Proof.
  induction s as [|c s IH]; simpl; [reflexivity|].
  destruct (Ascii.eqb c "/") eqn:E; [exact IH|].
  destruct (Str.split_slash s) as [|seg segs]; simpl in *.
  - now rewrite E.
  - rewrite E. exact IH.
Qed.

Lemma split_path_segments path :
  fst (split_path path) ++ [snd (split_path path)] = Str.split_slash path.
Proof.
  unfold split_path. simpl. symmetry.
  apply app_removelast_last, split_slash_nonempty.
Qed.

Lemma split_path_absolute path :
  Str.startswith_slash path = true ->
  exists chain, fst (split_path path) = EmptyString :: chain.
Proof.
  destruct path as [|c s]; simpl; [discriminate|].
  intros E. unfold split_path. simpl Str.split_slash. rewrite E.
  destruct (Str.split_slash s) as [|seg segs] eqn:Es.
  - now apply split_slash_nonempty in Es.
  - exists (removelast (seg :: segs)). reflexivity.
Qed.

Lemma chain_eqb_eq q p : chain_eqb q p = true <-> q = p.
Proof.
  revert p. induction q as [|a q IH]; intros [|b p]; simpl; try easy.
  rewrite andb_true_iff, String.eqb_eq, IH. split.
  - now intros [-> ->].
  - now intros [= -> ->].
Qed.

Lemma chain_eqb_refl q : chain_eqb q q = true.
Proof. now apply chain_eqb_eq. Qed.

(** ** One insertion into the tree *)

Lemma files_at_empty_node q : files_at q empty_node = [].
Proof. destruct q; reflexivity. Qed.

Lemma has_node_empty_node q : has_node q empty_node = is_prefix q [].
Proof. destruct q; reflexivity. Qed.

Lemma is_prefix_nil_any q p : is_prefix q [] = true -> is_prefix q p = true.
Proof. destruct q; [reflexivity | discriminate]. Qed.

Lemma files_at_cons a q t :
  files_at (a :: q) t =
  match dict_get a (dirs t) with Some c => files_at q c | None => [] end.
Proof. unfold files_at. simpl. now destruct (dict_get a (dirs t)). Qed.

Lemma has_node_cons a q t :
  has_node (a :: q) t =
  match dict_get a (dirs t) with Some c => has_node q c | None => false end.
Proof. unfold has_node. simpl. now destruct (dict_get a (dirs t)). Qed.

(** The leaf lists after an insertion: the list at [p] has the leaf
    appended, every other list is as before. *)
Lemma files_at_add_file p leaf : forall q t,
  files_at q (add_file p leaf t) =
  if chain_eqb q p then files_at q t ++ [leaf] else files_at q t.
Proof.
  induction p as [|em p IH]; intros q t.
  - destruct q as [|a q]; [reflexivity|].
    simpl add_file. now rewrite !files_at_cons.
  - destruct q as [|a q]; [reflexivity|].
    simpl add_file. rewrite !files_at_cons. simpl dirs at 1. simpl chain_eqb.
    destruct (String.eqb a em) eqn:E.
    + apply String.eqb_eq in E. subst a.
      rewrite dict_get_set_same, IH. simpl.
      destruct (dict_get em (dirs t)); [reflexivity|].
      rewrite files_at_empty_node. now destruct (chain_eqb q p).
    + now rewrite dict_get_set_other.
Qed.

(** The directories after an insertion: those there before and those on
    the way to [p]. *)
Lemma has_node_add_file p leaf : forall q t,
  has_node q (add_file p leaf t) = has_node q t || is_prefix q p.
Proof.
  induction p as [|em p IH]; intros q t.
  - destruct q as [|a q]; [reflexivity|].
    simpl add_file. rewrite !has_node_cons. simpl. now rewrite orb_false_r.
  - destruct q as [|a q]; [reflexivity|].
    simpl add_file. rewrite !has_node_cons. simpl dirs at 1. simpl is_prefix.
    destruct (String.eqb a em) eqn:E.
    + apply String.eqb_eq in E. subst a.
      rewrite dict_get_set_same, IH. simpl.
      destruct (dict_get em (dirs t)); [reflexivity|].
      rewrite has_node_empty_node.
      destruct (is_prefix q []) eqn:Eq; [|reflexivity].
      now rewrite (is_prefix_nil_any q p Eq).
    + rewrite dict_get_set_other by assumption. simpl. now rewrite orb_false_r.
Qed.

Lemma count_leaves_node ds fs :
  count_leaves (Node ds fs) =
  (List.length fs + list_sum (map (fun kv => count_leaves (snd kv)) ds))%nat.
Proof.
  simpl. f_equal. f_equal. apply map_ext. now intros [k v].
Qed.

Lemma count_leaves_add_file p leaf : forall t,
  count_leaves (add_file p leaf t) = S (count_leaves t).
Proof.
  induction p as [|em p IH]; intros [ds fs].
  - simpl add_file. rewrite !count_leaves_node, length_app. simpl. lia.
  - simpl add_file. rewrite !count_leaves_node.
    pose proof (dict_set_sum count_leaves em
                  (add_file p leaf match dict_get em ds with
                                   | Some c => c
                                   | None => empty_node
                                   end) ds) as H.
    rewrite IH in H. destruct (dict_get em ds); simpl in *; lia.
Qed.

Lemma parse_step_add_file t path size :
  parse_step t (path, size) =
  add_file (fst (split_path path)) (snd (split_path path), size) t.
Proof. reflexivity. Qed.

Lemma count_leaves_fold fs : forall t,
  count_leaves (fold_left parse_step fs t) = (List.length fs + count_leaves t)%nat.
Proof.
  induction fs as [|[path size] fs IH]; intros t; [reflexivity|].
  cbn [fold_left]. rewrite IH, parse_step_add_file, count_leaves_add_file.
  cbn [List.length]. lia.
Qed.

(** ** The conversion of a branch *)

Lemma fold_left_append {A B : Type} (f : list B -> A -> list B) (g : A -> B)
    (l : list A) :
  (forall res x, f res x = res ++ [g x]) ->
  forall init, fold_left f l init = init ++ map g l.
Proof.
  intros Hf. induction l as [|x l IH]; intros init; simpl.
  - now rewrite app_nil_r.
  - now rewrite IH, Hf, <- app_assoc.
Qed.

Lemma convert_branch_eq ds fs name :
  convert_branch (Node ds fs) name =
  name_obj name
  :: map (fun kv => JArr (convert_branch (snd kv) (fst kv))) ds
  ++ map leaf_obj fs.
Proof.
  simpl convert_branch.
  rewrite (fold_left_append _ leaf_obj) by reflexivity.
  rewrite (fold_left_append _ (fun kv => JArr (convert_branch (snd kv) (fst kv))))
    by now intros res [k v].
  reflexivity.
Qed.

(** ** Leaves survive later insertions and reach the export *)







(** ** The tree builder and the serializer *)



(** C2. [parse_list] of no files is the empty root node, and
    [convert_branch] of that node alone is the array of the name only;
    but [convert_tree] of it raises [KeyError] at [tree['dirs']['']] and
    returns no export, and so does a whole run in which the storage
    class asked for matches no object. *)
Theorem convert_tree_of_no_files_raises (t : Z) :
  parse_list [] = Node [] [] /\
  convert_branch (parse_list []) "S3" = [JObj [("name", JStr "S3")]] /\
  convert_tree t (parse_list []) = Raise (KeyError "") /\
  fst (run (sample_args (Some "DEEP_ARCHIVE"))
         "/home/user/.cache/s3du-cache.csv" "/tmp/s3du_0" sample_world)
  = Raise (KeyError "").
Proof. repeat split. Qed.

(** C4, as amended. For a pair [(path, size)], the directory chain and
    the file name are the segments of the path at its slashes, empty
    segments included: joined by slashes they give the path back and
    none holds a slash. After the insertion the leaf list of the node at
    the chain is the list before with [(fname, size)] appended, every
    other leaf list is unchanged, and the directories are those there
    before and those on the chain. *)
Theorem parse_step_inserts_along_all_segments
    (tr : tree) (path : string) (size : Z) :
  let chain := fst (split_path path) in
  let fname := snd (split_path path) in
  Str.join "/" (chain ++ [fname]) = path /\
  forallb no_slash (chain ++ [fname]) = true /\
  (forall q, files_at q (parse_step tr (path, size)) =
             if chain_eqb q chain then files_at q tr ++ [(fname, size)]
             else files_at q tr) /\
  (forall q, has_node q (parse_step tr (path, size)) =
             has_node q tr || is_prefix q chain).
Proof.
  cbv zeta. rewrite split_path_segments. repeat split.
  - apply join_split_slash.
  - apply split_slash_no_slash.
  - intros q. rewrite parse_step_add_file. apply files_at_add_file.
  - intros q. rewrite parse_step_add_file. apply has_node_add_file.
Qed.

(** C4, as stated, fails: for ["/b/x"] the non-empty segments before the
    file name are [["b"]], but the leaf goes to the node at [[""; "b"]]
    and there is no node at [["b"]]. *)
Lemma empty_segment_is_a_directory :
  let tr := parse_step empty_node ("/b/x", 1) in
  nonempty_segments "/b/x" = ["b"] /\
  files_at (nonempty_segments "/b/x") tr = [] /\
  has_node (nonempty_segments "/b/x") tr = false /\
  files_at [""; "b"] tr = [("x", 1)].
Proof. repeat split. Qed.

(** C7. The array of a directory node starts with the object that holds
    the name, then come the arrays of the subdirectories in the order of
    the dictionary, then the objects of the files in the order of the
    list; an empty name is written ["(unnamed)"]. *)
Theorem convert_branch_layout
    (ds : list (string * tree)) (fs : list (string * Z)) (name : string) :
  convert_branch (Node ds fs) name =
  JObj [("name", JStr (if String.eqb name "" then "(unnamed)" else name))]
  :: map (fun kv => JArr (convert_branch (snd kv) (fst kv))) ds
  ++ map (fun f =>
            JObj [("name", JStr (if String.eqb (fst f) "" then "(unnamed)"
                                 else fst f));
                  ("dsize", JInt (snd f))]) fs.
Proof.
  rewrite convert_branch_eq. f_equal.
  - unfold name_obj. now destruct name.
  - f_equal. apply map_ext. intros [fname size]. unfold leaf_obj. cbn [fst snd].
    now destruct fname.
Qed.

(** C9. The tree built from a list of pairs has as many leaf entries,
    over all its nodes, as the list has pairs, duplicates included: each
    insertion adds one entry to those already there. *)
Theorem parse_list_counts_every_pair (fs : list (string * Z)) :
  count_leaves (parse_list fs) = List.length fs /\
  (forall tr f, count_leaves (parse_step tr f) = S (count_leaves tr)) /\
  (forall tr f q, exists l, files_at q (parse_step tr f) = files_at q tr ++ l).
Proof.
  split; [|split].
  - unfold parse_list. rewrite count_leaves_fold. simpl. lia.
  - intros tr [path size]. rewrite parse_step_add_file.
    apply count_leaves_add_file.
  - intros tr [path size] q. rewrite parse_step_add_file, files_at_add_file.
    destruct (chain_eqb q _); [eauto|].
    exists []. now rewrite app_nil_r.
Qed.

(** ** [int(str(n))] *)

Module PyFacts.

Import Decimal.

Lemma digits_flag_irrelevant d acc :
  d <> Nil ->
  Py.digits acc false (NilEmpty.string_of_uint d) =
  Py.digits acc true (NilEmpty.string_of_uint d).
Proof. destruct d; easy. Qed.

Lemma digits_of_uint_acc d : forall acc,
  Py.digits (Zpos acc) true (NilEmpty.string_of_uint d) =
  Some (Zpos (Pos.of_uint_acc d acc)).
Proof.
  induction d; intros acc; [reflexivity | ..];
    cbn [NilEmpty.string_of_uint Py.digits Pos.of_uint_acc];
    match goal with
    | |- context [Py.digit_val ?c] =>
        let v := eval vm_compute in (Py.digit_val c) in
        change (Py.digit_val c) with v
    end; cbv beta iota;
    rewrite <- IHd; f_equal; lia.
Qed.

Lemma digits_of_uint d :
  Py.digits 0 true (NilEmpty.string_of_uint d) = Some (Z.of_N (Pos.of_uint d)).
Proof.
  induction d; [reflexivity | exact IHd | ..];
    cbn [NilEmpty.string_of_uint Py.digits Pos.of_uint];
    match goal with
    | |- context [Py.digit_val ?c] =>
        let v := eval vm_compute in (Py.digit_val c) in
        change (Py.digit_val c) with v
    end; cbv beta iota;
    cbn [Z.of_N]; rewrite <- digits_of_uint_acc; reflexivity.
Qed.

Lemma lstrip_of_uint d :
  Py.lstrip (NilEmpty.string_of_uint d) = NilEmpty.string_of_uint d.
Proof. destruct d; reflexivity. Qed.

Lemma rstrip_of_uint d :
  Py.rstrip (NilEmpty.string_of_uint d) = NilEmpty.string_of_uint d.
Proof.
  induction d; [reflexivity | ..];
    cbn [NilEmpty.string_of_uint Py.rstrip]; rewrite IHd;
    now destruct (NilEmpty.string_of_uint d).
Qed.

Lemma int_of_uint d :
  d <> Nil ->
  Py.int (NilEmpty.string_of_uint d) = Some (Z.of_N (Pos.of_uint d)).
Proof.
  intros Hd. unfold Py.int. rewrite lstrip_of_uint, rstrip_of_uint.
  rewrite <- digits_of_uint, <- (digits_flag_irrelevant 0 Hd).
  destruct d; easy.
Qed.

Lemma int_of_neg_uint d :
  d <> Nil ->
  Py.int (String "-" (NilEmpty.string_of_uint d)) =
  Some (- Z.of_N (Pos.of_uint d)).
Proof.
  intros Hd. unfold Py.int.
  change (Py.lstrip (String "-" ?s)) with (String "-" s).
  cbn [Py.rstrip]. rewrite rstrip_of_uint.
  assert (Hs : exists c r, NilEmpty.string_of_uint d = String c r)
    by (destruct d; [easy | ..]; eexists _, _; reflexivity).
  destruct Hs as (c & r & Hs). rewrite Hs, <- Hs.
  now rewrite (digits_flag_irrelevant 0 Hd), digits_of_uint.
Qed.

Lemma string_of_uint_nonnil d :
  d <> Nil -> NilZero.string_of_uint d = NilEmpty.string_of_uint d.
Proof. destruct d; easy. Qed.

End PyFacts.

(** [int] reads back what [str] writes. *)
Lemma int_str (n : Z) : Py.int (Py.str n) = Some n.
Proof.
  unfold Py.str. destruct n as [|p|p]; [reflexivity | ..];
    cbn [Z.to_int NilZero.string_of_int];
    pose proof (DecimalPos.Unsigned.to_uint_nonnil p) as Hp;
    rewrite (PyFacts.string_of_uint_nonnil Hp).
  - rewrite (PyFacts.int_of_uint Hp), DecimalPos.Unsigned.of_to. reflexivity.
  - rewrite (PyFacts.int_of_neg_uint Hp), DecimalPos.Unsigned.of_to. reflexivity.
Qed.

Example str_examples :
  Py.str 0 = "0" /\ Py.str 1203 = "1203" /\ Py.str (-15) = "-15".
Proof. repeat split. Qed.

Example int_examples :
  Py.int "1203" = Some 1203 /\ Py.int " 1_000 " = Some 1000 /\
  Py.int "-007" = Some (-7) /\ Py.int "+5" = Some 5 /\
  Py.int "" = None /\ Py.int "-" = None /\ Py.int "12a" = None /\
  Py.int "1__0" = None /\ Py.int "_1" = None /\ Py.int "1 0" = None.
Proof. repeat split. Qed.

(** ** Reading the cache *)

Lemma read_rows_acc sc rows : forall files,
  read_rows sc rows files =
  match read_rows sc rows [] with
  | Ok l => Ok (files ++ l)
  | Raise e => Raise e
  end.
Proof.
  induction rows as [|r rows IH]; intros files; cbn [read_rows].
  - now rewrite app_nil_r.
  - destruct r as [|b [|k [|sz [|c [|x r]]]]]; try reflexivity.
    destruct (skipped sc c); [apply IH|].
    destruct (Py.int sz) as [n|]; [|reflexivity].
    rewrite IH, (IH ([] ++ _)).
    destruct (read_rows sc rows []); [|reflexivity].
    now rewrite <- app_assoc.
Qed.

(** The rows written for a list of objects read back as the pairs of
    the objects that are not skipped, in the same order. *)
Lemma read_rows_row_of sc recs :
  read_rows sc (map row_of recs) [] =
  Ok (map entry_of
        (filter (fun r => negb (skipped sc (StorageClass (snd r)))) recs)).
Proof.
  induction recs as [|[b it] recs IH]; [reflexivity|].
  cbn [map filter row_of record_row fst snd read_rows].
  destruct (skipped sc (StorageClass it)); cbn [negb]; [exact IH|].
  rewrite int_str, read_rows_acc, IH. reflexivity.
Qed.

Lemma filter_all {A : Type} (l : list A) : filter (fun _ => true) l = l.
Proof. induction l; simpl; congruence. Qed.

Lemma skipped_no_filter sc c : Py.truthy sc = false -> skipped sc c = false.
Proof. unfold skipped. now intros ->. Qed.

Lemma skipped_class c sclass :
  In c STORAGE_CLASSES -> skipped (Some c) sclass = negb (String.eqb sclass c).
Proof.
  unfold skipped. rewrite (String.eqb_sym sclass c).
  intros [<- | [<- | [<- | [<- | []]]]]; reflexivity.
Qed.

Lemma read_rows_raises sc rows : forall files,
  (exists e, read_rows sc rows files = Raise e) <->
  Exists (fun r => wrong_arity r \/
                   (skipped sc (nth 3 r "") = false /\ bad_size r)) rows.
Proof.
  unfold wrong_arity, bad_size.
  induction rows as [|r rows IH]; intros files; cbn [read_rows].
  - split; [intros [e [=]] | intros H; inversion H].
  - rewrite Exists_cons.
    destruct r as [|b [|k [|sz [|c [|x r]]]]];
      try (split; [intros _; left; left; simpl; lia | intros _; eexists; reflexivity]).
    cbn [nth List.length].
    destruct (skipped sc c) eqn:Esk.
    + rewrite IH. split; [tauto|]. intros [[H | [H _]] | H]; [lia | easy | easy].
    + destruct (Py.int sz) as [n|] eqn:Ei.
      * rewrite IH. split; [tauto|]. intros [[H | [_ H]] | H]; [lia | easy | easy].
      * split; [intros _; left; right; easy | intros _; eexists; reflexivity].
Qed.

Lemma list_files_eq s w :
  list_files (s, w) =
  (match cache w with
   | None => Raise (FileNotFoundError (csv_name s))
   | Some (_, rows) => read_rows (storage_class s) rows []
   end, (s, w)).
Proof.
  unfold list_files, bind, self, the_world. cbn [fst snd].
  destruct (cache w) as [[mtime rows]|]; reflexivity.
Qed.

(** ** Writing the cache *)

Lemma updated_updated c c' out out' w :
  updated c' out' (updated c out w) = updated c' out' w.
Proof. reflexivity. Qed.

Lemma print_eq line s w :
  print line (s, w) = (Ok tt, (s, updated (cache w) (stdout w ++ [line]) w)).
Proof. reflexivity. Qed.

Lemma writerow_eq r s w mtime rows :
  cache w = Some (mtime, rows) ->
  writerow r (s, w) = (Ok tt, (s, updated (Some (mtime, rows ++ [r])) (stdout w) w)).
Proof.
  intros Hc. unfold writerow, bind, the_world. cbn [fst snd]. now rewrite Hc.
Qed.

Lemma write_items_eq b items s : forall count w mtime rows,
  cache w = Some (mtime, rows) ->
  write_items b items count (s, w) =
  (Ok (count + Z.of_nat (List.length items)),
   (s, updated (Some (mtime, rows ++ map (record_row b) items)) (stdout w) w)).
Proof.
  induction items as [|it items IH]; intros count w mtime rows Hc.
  - cbn [write_items map List.length]. unfold ret.
    rewrite app_nil_r, Z.add_0_r, <- Hc. now destruct w.
  - cbn [write_items]. unfold bind at 1. rewrite (writerow_eq _ _ _ Hc).
    rewrite (IH _ _ mtime (rows ++ [record_row b it])) by reflexivity.
    rewrite updated_updated. cbn [map List.length]. rewrite <- app_assoc.
    f_equal. f_equal. lia.
Qed.

(** Run the remaining pages (or buckets) by the induction hypothesis [IH]
    at the state the goal has reached. *)
Ltac use_pages IH :=
  match goal with
  | |- context [write_pages _ _ _ ?n (_, ?w')] =>
      let c := fresh "count" in
      let out := fresh "out" in
      edestruct (IH n w') as (c & out & ->);
        [solve [reflexivity | eassumption] .. |]
  end.

Ltac use_buckets IH El :=
  match goal with
  | |- context [write_buckets _ ?n (_, ?w')] =>
      let c := fresh "count" in
      let out := fresh "out" in
      edestruct (IH n w') as (c & out & ->);
        [solve [exact El | reflexivity | eassumption] .. |]
  end.

Lemma write_pages_eq b uri s pages : forall count w mtime rows items,
  page_items pages = Some items ->
  cache w = Some (mtime, rows) ->
  exists count' out,
    write_pages b uri pages count (s, w) =
    (Ok count',
     (s, updated (Some (mtime, rows ++ map (record_row b) items)) out w)).
Proof.
  induction pages as [contents | contents rest IH];
    intros count w mtime rows items Hp Hc; cbn [page_items] in Hp.
  - subst contents. cbn [write_pages get_contents]. unfold bind at 1, ret at 1.
    rewrite (write_items_eq _ _ _ _ _ Hc). eauto.
  - destruct contents as [its|]; [|discriminate].
    destruct (page_items rest) as [its'|] eqn:Er; [|discriminate].
    injection Hp as <-.
    cbn [write_pages get_contents]. unfold bind at 1, ret at 1.
    unfold bind at 1. rewrite (write_items_eq _ _ _ _ _ Hc).
    unfold bind at 1, self at 1. cbn [fst].
    unfold bind at 1.
    destruct (verbose s); cbn [when].
    + rewrite print_eq, updated_updated. use_pages IH.
      rewrite !updated_updated, map_app, app_assoc. eauto.
    + unfold ret at 1. use_pages IH.
      rewrite !updated_updated, map_app, app_assoc. eauto.
Qed.

Lemma write_buckets_eq s buckets : forall count w mtime rows recs,
  listed (fun b => s3_objects w b (prefix s)) buckets = Some recs ->
  cache w = Some (mtime, rows) ->
  exists count' out,
    write_buckets buckets count (s, w) =
    (Ok count', (s, updated (Some (mtime, rows ++ map row_of recs)) out w)).
Proof.
  induction buckets as [|b buckets IH];
    intros count w mtime rows recs Hl Hc; cbn [listed] in Hl.
  - injection Hl as <-. cbn [write_buckets map]. unfold ret.
    rewrite app_nil_r, <- Hc. exists count, (stdout w). now destruct w.
  - destruct (page_items (s3_objects w b (prefix s))) as [its|] eqn:Ep;
      [|discriminate].
    destruct (listed _ buckets) as [recs'|] eqn:El; [|discriminate].
    injection Hl as <-.
    cbn [write_buckets]. unfold bind at 1, self at 1. cbn [fst].
    unfold bind at 1.
    assert (Hrows : forall items,
               map row_of (map (pair b) items) = map (record_row b) items)
      by (intros items; rewrite map_map; reflexivity).
    destruct (verbose s); cbn [when].
    + rewrite print_eq. unfold bind at 1, the_world at 1. cbn [snd].
      unfold bind at 1. cbn [updated s3_objects].
      use_pages (fun n w' => write_pages_eq b ("s3://" ++ b ++ "/" ++ prefix s)%string
                               s (s3_objects w b (prefix s)) n w'
                               (mtime := mtime) (rows := rows) Ep).
      use_buckets IH El.
      rewrite !updated_updated, map_app, Hrows, app_assoc. eauto.
    + unfold ret at 1, bind at 1, the_world at 1. cbn [snd].
      unfold bind at 1.
      use_pages (fun n w' => write_pages_eq b ("s3://" ++ b ++ "/" ++ prefix s)%string
                               s (s3_objects w b (prefix s)) n w'
                               (mtime := mtime) (rows := rows) Ep).
      use_buckets IH El.
      rewrite !updated_updated, map_app, Hrows, app_assoc. eauto.
Qed.

Lemma list_buckets_eq s w : list_buckets (s, w) = (Ok (buckets_of s w), (s, w)).
Proof.
  unfold list_buckets, buckets_of, bind, self. cbn [fst].
  now destruct (Py.truthy (bucket s)).
Qed.

(** A refresh leaves in the cache file the rows of the listed objects. *)
Lemma refresh_cache_eq s w recs :
  listed (fun b => s3_objects w b (prefix s)) (buckets_of s w) = Some recs ->
  exists out,
    refresh_cache (s, w) =
    (Ok tt, (s, updated (Some (now w, map row_of recs)) out w)).
Proof.
  intros Hl. unfold refresh_cache.
  unfold bind at 1, the_world at 1. cbn [snd].
  unfold bind at 1.
  change (set_cache (Some (now w, [])) (s, w))
    with (Ok tt, (s, updated (Some (now w, [])) (stdout w) w)).
  unfold bind at 1. rewrite list_buckets_eq.
  unfold bind at 1.
  change (buckets_of s (updated (Some (now w, [])) (stdout w) w))
    with (buckets_of s w).
  edestruct (write_buckets_eq s (buckets_of s w) 0
               (updated (Some (now w, [])) (stdout w) w)
               (mtime := now w) (rows := []) Hl)
    as (c' & out & ->); [reflexivity|].
  rewrite updated_updated. unfold ret. eauto.
Qed.

Lemma cache_files_eq s w :
  cache_files (s, w) =
  if cache_is_fresh s w
  then print ("Using file list from cache: " ++ csv_name s)%string (s, w)
  else refresh_cache (s, w).
Proof.
  unfold cache_files, bind, self, the_world. cbn [fst snd].
  now destruct (cache_is_fresh s w).
Qed.

(** ** Freshness of the cache *)

Lemma Qltb_lt x y : Py.Qltb x y = true <-> (x < y)%Q.
Proof.
  unfold Py.Qltb. rewrite negb_true_iff, <- not_true_iff_false, Qle_bool_iff.
  split; [apply Qnot_le_lt | apply Qlt_not_le].
Qed.

Lemma fresh_iff nocache t c :
  fresh nocache t c = true <->
  (exists mtime rows, c = Some (mtime, rows) /\ (t - mtime < 3600)%Q)
  /\ nocache = false.
Proof.
  unfold fresh. destruct c as [[mtime rows]|].
  - rewrite andb_true_iff, negb_true_iff, Qltb_lt. split.
    + intros [Hn Hlt]. split; [now exists mtime, rows | exact Hn].
    + intros [(m & r & [= <- <-] & Hlt) Hn]. now split.
  - split; [discriminate | now intros [(m & r & [=] & _) _]].
Qed.

Lemma fresh_after_10_seconds t rows :
  fresh false t (Some ((t - 10)%Q, rows)) = true.
Proof.
  apply fresh_iff. split; [|reflexivity].
  exists (t - 10)%Q, rows. split; [reflexivity|].
  assert (H : (t - (t - 10) == 10)%Q) by ring.
  rewrite H. reflexivity.
Qed.

Lemma stale_after_7200_seconds nocache t rows :
  fresh nocache t (Some ((t - 7200)%Q, rows)) = false.
Proof.
  apply not_true_iff_false. rewrite fresh_iff.
  intros [(m & r & [= <- <-] & Hlt) _].
  assert (H : (t - (t - 7200) == 7200)%Q) by ring.
  rewrite H in Hlt. discriminate.
Qed.

(** ** The object is never written *)

Lemma keeps_self_ret {A : Type} (a : A) : keeps_self (ret a).
Proof. now intros st. Qed.

Lemma keeps_self_raise {A : Type} e : keeps_self (@raise A e).
Proof. now intros st. Qed.

Lemma keeps_self_lift {A : Type} (r : result A) : keeps_self (lift r).
Proof. now intros st. Qed.

Lemma keeps_self_self : keeps_self self.
Proof. now intros st. Qed.

Lemma keeps_self_the_world : keeps_self the_world.
Proof. now intros st. Qed.

Lemma keeps_self_set_world w : keeps_self (set_world w).
Proof. now intros st. Qed.

Lemma keeps_self_bind {A B : Type} (m : M A) (k : A -> M B) :
  keeps_self m -> (forall a, keeps_self (k a)) -> keeps_self (bind m k).
Proof.
  intros Hm Hk st. unfold bind. specialize (Hm st).
  destruct (m st) as [[a|e] st1]; cbn [fst snd] in *; [|exact Hm].
  now rewrite Hk.
Qed.

Create HintDb keeps discriminated.

#[local] Hint Resolve keeps_self_ret keeps_self_raise keeps_self_lift
  keeps_self_self keeps_self_the_world keeps_self_set_world : keeps.

Ltac keeps :=
  repeat first
    [ progress auto with keeps
    | apply keeps_self_bind; [| intro]
    | match goal with
      | |- keeps_self (match ?x with _ => _ end) => destruct x
      | |- keeps_self (if ?b then _ else _) => destruct b
      end ].

Lemma keeps_self_when b m : keeps_self m -> keeps_self (when b m).
Proof. intros H. unfold when. keeps. Qed.

Lemma keeps_self_print line : keeps_self (print line).
Proof. unfold print. keeps. Qed.

Lemma keeps_self_set_cache c : keeps_self (set_cache c).
Proof. unfold set_cache. keeps. Qed.

Lemma keeps_self_set_out_file f : keeps_self (set_out_file f).
Proof. unfold set_out_file. keeps. Qed.

#[local] Hint Resolve keeps_self_when keeps_self_print keeps_self_set_cache
  keeps_self_set_out_file : keeps.

Lemma keeps_self_writerow r : keeps_self (writerow r).
Proof. unfold writerow. keeps. Qed.

#[local] Hint Resolve keeps_self_writerow : keeps.

Lemma keeps_self_write_items b items : forall count,
  keeps_self (write_items b items count).
Proof. induction items; intros count; cbn [write_items]; keeps. Qed.

Lemma keeps_self_get_contents c : keeps_self (get_contents c).
Proof. unfold get_contents. keeps. Qed.

#[local] Hint Resolve keeps_self_write_items keeps_self_get_contents : keeps.

Lemma keeps_self_write_pages b uri pages : forall count,
  keeps_self (write_pages b uri pages count).
Proof. induction pages; intros count; cbn [write_pages]; keeps. Qed.

#[local] Hint Resolve keeps_self_write_pages : keeps.

Lemma keeps_self_write_buckets buckets : forall count,
  keeps_self (write_buckets buckets count).
Proof. induction buckets; intros count; cbn [write_buckets]; keeps. Qed.

Lemma keeps_self_list_buckets : keeps_self list_buckets.
Proof. unfold list_buckets. keeps. Qed.

#[local] Hint Resolve keeps_self_write_buckets keeps_self_list_buckets : keeps.

Lemma keeps_self_refresh_cache : keeps_self refresh_cache.
Proof. unfold refresh_cache. keeps. Qed.

#[local] Hint Resolve keeps_self_refresh_cache : keeps.

Lemma keeps_self_cache_files : keeps_self cache_files.
Proof. unfold cache_files. keeps. Qed.

Lemma keeps_self_list_files : keeps_self list_files.
Proof. unfold list_files. keeps. Qed.

Lemma keeps_self_run_ncdu : keeps_self run_ncdu.
Proof. unfold run_ncdu. keeps. Qed.

#[local] Hint Resolve keeps_self_cache_files keeps_self_list_files
  keeps_self_run_ncdu : keeps.

Lemma keeps_self_main : keeps_self main.
Proof. unfold main. keeps. Qed.

(** ** The last line of a run *)

Lemma bind_ok {A B : Type} (m : M A) (k : A -> M B) st b st' :
  bind m k st = (Ok b, st') ->
  exists a st1, m st = (Ok a, st1) /\ k a st1 = (Ok b, st').
Proof.
  unfold bind. destruct (m st) as [[a|e] st1]; [|discriminate].
  intros H. now exists a, st1.
Qed.

Lemma last_snoc {A : Type} (l : list A) (x d : A) : last (l ++ [x]) d = x.
Proof. apply last_last. Qed.

Lemma main_ok_last_line st st' :
  main st = (Ok tt, st') ->
  last (stdout (snd st')) "" = closing_message (fst st).
Proof.
  unfold main. intros H.
  apply bind_ok in H. destruct H as (? & st1 & H1 & H).
  apply bind_ok in H. destruct H as (fs & st2 & H2 & H).
  apply bind_ok in H. destruct H as (w3 & st3 & H3 & H).
  apply bind_ok in H. destruct H as (ncdu & st4 & H4 & H).
  apply bind_ok in H. destruct H as (? & st5 & H5 & H).
  apply bind_ok in H. destruct H as (? & st6 & H6 & H).
  apply bind_ok in H. destruct H as (s & st7 & H7 & H).
  apply bind_ok in H. destruct H as (? & st8 & H8 & H).
  pose proof (keeps_self_cache_files st) as K1. rewrite H1 in K1.
  pose proof (keeps_self_list_files st1) as K2. rewrite H2 in K2.
  pose proof (keeps_self_the_world st2) as K3. rewrite H3 in K3.
  pose proof (keeps_self_lift (convert_tree (Py.int_of_time (now w3))
                                 (parse_list fs)) st3) as K4.
  rewrite H4 in K4.
  pose proof (keeps_self_set_out_file (JsonFile ncdu) st4) as K5.
  rewrite H5 in K5.
  pose proof (keeps_self_run_ncdu st5) as K6. rewrite H6 in K6.
  injection H7 as <- <-.
  cbn [fst snd] in *.
  destruct st8 as [s8 w8]. rewrite print_eq in H. injection H as <-.
  cbn [snd updated stdout]. rewrite last_snoc.
  congruence.
Qed.

Lemma closing_message_no_classes s :
  classes s = [] -> closing_message s = "Found objects of classes: .".
Proof. unfold closing_message. now intros ->. Qed.


(** ** The cache file as text *)

Module CsvFacts.

Import Csv.

Lemma append_assoc (a b c : string) : ((a ++ b) ++ c = a ++ (b ++ c))%string.
Proof. induction a as [|x a IH]; simpl; congruence. Qed.

Lemma append_nil_r (a : string) : (a ++ "" = a)%string.
Proof. induction a as [|x a IH]; simpl; congruence. Qed.

Lemma length_append (a b : string) :
  String.length (a ++ b) = (String.length a + String.length b)%nat.
Proof. induction a as [|x a IH]; simpl; congruence. Qed.

Lemma has_append p (a b : string) : has p (a ++ b) = has p a || has p b.
Proof.
  induction a as [|x a IH]; simpl; [reflexivity|].
  now rewrite IH, orb_assoc.
Qed.

Lemma has_weaken (p q : ascii -> bool) s :
  (forall c, q c = true -> p c = true) -> has p s = false -> has q s = false.
Proof.
  intros Hpq. induction s as [|c s IH]; simpl; [easy|].
  intros H. apply orb_false_iff in H. destruct H as [Hc Hs].
  rewrite (IH Hs), orb_false_r.
  destruct (q c) eqn:E; [|reflexivity]. apply Hpq in E. congruence.
Qed.

(** *** The newline translation *)

Lemma universal_newlines_plain a b :
  has is_cr a = false ->
  universal_newlines (a ++ b) = (a ++ universal_newlines b)%string.
Proof.
  induction a as [|c a IH]; simpl; [reflexivity|].
  intros H. apply orb_false_iff in H. destruct H as [Hc Ha].
  unfold is_cr in Hc. rewrite Hc. now rewrite IH.
Qed.

Lemma universal_newlines_crlf b :
  universal_newlines (String CR (String LF b)) = String LF (universal_newlines b).
Proof. reflexivity. Qed.

Lemma body_plain f : has needs_quote f = false -> body f = f.
Proof.
  induction f as [|c f IH]; simpl; [reflexivity|].
  intros H. apply orb_false_iff in H. destruct H as [Hc Hf].
  unfold needs_quote in Hc.
  destruct (Ascii.eqb c quotechar) eqn:E;
    [now rewrite orb_true_r in Hc | now rewrite IH].
Qed.

Lemma has_cr_body f : has is_cr f = false -> has is_cr (body f) = false.
Proof.
  induction f as [|c f IH]; simpl; [reflexivity|].
  intros H. apply orb_false_iff in H. destruct H as [Hc Hf].
  destruct (Ascii.eqb c quotechar) eqn:E; simpl; rewrite (IH Hf).
  - reflexivity.
  - now rewrite Hc.
Qed.

Lemma has_cr_field_text f :
  has is_cr f = false -> has is_cr (field_text f) = false.
Proof.
  intros H. unfold field_text. destruct (has needs_quote f).
  - simpl. rewrite has_append, (has_cr_body f H). reflexivity.
  - now apply has_cr_body.
Qed.

Lemma has_cr_join l :
  Forall (fun f => has is_cr f = false) l ->
  has is_cr (Str.join "," (map field_text l)) = false.
Proof.
  induction l as [|f l IH]; intros H; [reflexivity|].
  inversion H as [|? ? Hf Hl]; subst.
  destruct l as [|f2 l].
  - simpl. now apply has_cr_field_text.
  - cbn [map]. rewrite join_cons, !has_append, (has_cr_field_text f Hf).
    cbn [map] in IH. rewrite (IH Hl). reflexivity.
Qed.

Lemma has_cr_rec_text r :
  Forall (fun f => has is_cr f = false) r -> has is_cr (rec_text r) = false.
Proof.
  intros H. unfold rec_text. pose proof (has_cr_join H) as Hj.
  destruct r; [reflexivity|].
  now destruct (Str.join "," (map field_text (s :: r))).
Qed.

Lemma row_text_rec r :
  row_text r = (rec_text r ++ String CR (String LF EmptyString))%string.
Proof.
  unfold row_text, rec_text. destruct r; [reflexivity|].
  now destruct (Str.join "," (map field_text (s :: r))).
Qed.

Lemma universal_newlines_rows rows :
  Forall (Forall (fun f => has is_cr f = false)) rows ->
  universal_newlines (rows_text rows) = lines_text rows.
Proof.
  induction rows as [|r rows IH]; intros H; [reflexivity|].
  inversion H as [|? ? Hr Hrows]; subst.
  cbn [rows_text lines_text]. rewrite row_text_rec, append_assoc.
  rewrite universal_newlines_plain by now apply has_cr_rec_text.
  cbn [String.append]. now rewrite universal_newlines_crlf, IH.
Qed.

(** *** The reader, step by step *)

Lemma read_step p pend c T p1 :
  parse_process_char p (Some c) = Some p1 ->
  Ascii.eqb c LF = false ->
  read_lines p pend (String c T) = read_lines p1 true T.
Proof. intros H1 Hc. cbn [read_lines]. now rewrite H1, Hc. Qed.

Lemma read_step_lf p pend T p1 p2 :
  parse_process_char p (Some LF) = Some p1 ->
  parse_process_char p1 None = Some p2 ->
  at_start p2 = false ->
  read_lines p pend (String LF T) = read_lines p2 false T.
Proof.
  intros H1 H2 H3. cbn [read_lines]. rewrite H1, H2, H3.
  reflexivity.
Qed.

Lemma read_step_emit p pend T p1 p2 :
  parse_process_char p (Some LF) = Some p1 ->
  parse_process_char p1 None = Some p2 ->
  at_start p2 = true ->
  read_lines p pend (String LF T) =
  (fields p2 :: fst (read_lines reset false T), snd (read_lines reset false T)).
Proof.
  intros H1 H2 H3. cbn [read_lines]. rewrite H1, H2, H3.
  change (Ascii.eqb LF LF) with true. cbv iota.
  now destruct (read_lines reset false T).
Qed.

Lemma add_ok st pre fs c :
  (N.of_nat (String.length pre) < field_size_limit)%N ->
  parse_add_char (mk st pre fs) c = Some (mk st (pre ++ String c "") fs).
Proof.
  intros H. unfold parse_add_char, mk. cbn [field pstate fields].
  destruct (N.leb_spec field_size_limit (N.of_nat (String.length pre)));
    [lia | reflexivity].
Qed.

Lemma ordinary c :
  needs_quote c = false ->
  Ascii.eqb c delimiter = false /\ Ascii.eqb c quotechar = false
  /\ Ascii.eqb c CR = false /\ Ascii.eqb c LF = false.
Proof.
  unfold needs_quote. intros H.
  repeat (apply orb_false_iff in H; destruct H as [H ?]). auto.
Qed.

Lemma shorter pre c g :
  (N.of_nat (String.length (pre ++ String c g)) <= field_size_limit)%N ->
  (N.of_nat (String.length pre) < field_size_limit)%N /\
  (N.of_nat (String.length ((pre ++ String c "") ++ g)) <= field_size_limit)%N.
Proof.
  rewrite !length_append. cbn [String.length]. lia.
Qed.

(** An unquoted field: its characters are added one by one. *)
Lemma in_field_run g : forall pre fs T,
  has needs_quote g = false ->
  (N.of_nat (String.length (pre ++ g)) <= field_size_limit)%N ->
  read_lines (mk IN_FIELD pre fs) true (g ++ T) =
  read_lines (mk IN_FIELD (pre ++ g) fs) true T.
Proof.
  induction g as [|c g IH]; intros pre fs T Hq Hlen.
  - now rewrite append_nil_r.
  - cbn [has] in Hq. apply orb_false_iff in Hq. destruct Hq as [Hc Hg].
    destruct (ordinary c Hc) as (Hd & Hqc & Hcr & Hlf).
    destruct (shorter pre c g Hlen) as [Hlt Hlen'].
    cbn [String.append].
    rewrite (@read_step _ _ _ _ (mk IN_FIELD (pre ++ String c "") fs)); [|
      unfold parse_process_char, is_newline; cbn [pstate mk];
      rewrite Hlf, Hcr, Hd; cbn [orb]; now apply add_ok | exact Hlf].
    rewrite (IH _ _ _ Hg Hlen'), append_assoc. reflexivity.
Qed.

(** A quoted field up to and with its closing quote character: a
    doubled quote character gives one, a line feed is taken into the
    field and the field goes on in the next line. *)
Lemma in_quoted_run g : forall pre fs pend T,
  has is_cr g = false ->
  (N.of_nat (String.length (pre ++ g)) <= field_size_limit)%N ->
  read_lines (mk IN_QUOTED_FIELD pre fs) pend (body g ++ String quotechar T) =
  read_lines (mk QUOTE_IN_QUOTED_FIELD (pre ++ g) fs) true T.
Proof.
  induction g as [|c g IH]; intros pre fs pend T Hcr Hlen.
  - rewrite append_nil_r. cbn [body String.append].
    now apply read_step.
  - cbn [has] in Hcr. apply orb_false_iff in Hcr. destruct Hcr as [Hc Hg].
    unfold is_cr in Hc.
    destruct (shorter pre c g Hlen) as [Hlt Hlen'].
    cbn [body]. destruct (Ascii.eqb c quotechar) eqn:Eq.
    + apply Ascii.eqb_eq in Eq. subst c. cbn [String.append].
      rewrite (@read_step _ _ _ _ (mk QUOTE_IN_QUOTED_FIELD pre fs));
        [| reflexivity | reflexivity].
      rewrite (@read_step _ _ _ _ (mk IN_QUOTED_FIELD (pre ++ String quotechar "") fs));
        [| unfold parse_process_char; cbn [pstate mk];
           change (Ascii.eqb quotechar quotechar) with true; cbv iota;
           now rewrite add_ok | reflexivity].
      rewrite (IH _ _ _ _ Hg Hlen'), append_assoc. reflexivity.
    + cbn [String.append]. destruct (Ascii.eqb c LF) eqn:El.
      * apply Ascii.eqb_eq in El. subst c.
        rewrite (@read_step_lf _ _ _
                   (mk IN_QUOTED_FIELD (pre ++ String LF "") fs)
                   (mk IN_QUOTED_FIELD (pre ++ String LF "") fs));
          [| unfold parse_process_char; cbn [pstate mk];
             change (Ascii.eqb LF quotechar) with false; cbv iota;
             now apply add_ok | reflexivity | reflexivity].
        rewrite (IH _ _ _ _ Hg Hlen'), append_assoc. reflexivity.
      * rewrite (@read_step _ _ _ _ (mk IN_QUOTED_FIELD (pre ++ String c "") fs));
          [| unfold parse_process_char; cbn [pstate mk]; rewrite Eq;
             now apply add_ok | exact El].
        rewrite (IH _ _ _ _ Hg Hlen'), append_assoc. reflexivity.
Qed.

Lemma field_text_quoted f T :
  has needs_quote f = true ->
  (field_text f ++ T)%string =
  String quotechar (body f ++ String quotechar T).
Proof.
  intros H. unfold field_text. rewrite H. cbn [String.append].
  now rewrite append_assoc.
Qed.

Lemma field_text_plain f : has needs_quote f = false -> field_text f = f.
Proof. intros H. unfold field_text. rewrite H. now apply body_plain. Qed.

Lemma length_nil_append g :
  (N.of_nat (String.length g) <= field_size_limit)%N ->
  (N.of_nat (String.length ("" ++ g)) <= field_size_limit)%N.
Proof. easy. Qed.

(** The first character of an unquoted field. *)
Lemma start_char st fs c :
  st = START_RECORD \/ st = START_FIELD ->
  needs_quote c = false ->
  parse_process_char (mk st "" fs) (Some c) = Some (mk IN_FIELD (String c "") fs).
Proof.
  intros Hst Hc. destruct (ordinary c Hc) as (Hd & Hqc & Hcr & Hlf).
  assert (Hadd : forall st', parse_add_char (mk st' "" fs) c
                             = Some (mk st' (String c "") fs))
    by (intros st'; now apply (add_ok st' "" fs c)).
  destruct Hst as [-> | ->];
    unfold parse_process_char, start_field, is_newline; cbn [pstate mk goto];
    rewrite Hlf, Hcr, Hqc, Hd; cbn [orb];
    [change (goto START_FIELD (mk START_RECORD "" fs)) with (mk START_FIELD "" fs)|];
    now rewrite Hadd.
Qed.

(** A field and the delimiter after it. *)
Lemma field_then_delim st f fs pend T :
  st = START_RECORD \/ st = START_FIELD ->
  plain_field f ->
  read_lines (mk st "" fs) pend (field_text f ++ String delimiter T) =
  read_lines (mk START_FIELD "" (fs ++ [f])) true T.
Proof.
  intros Hst [Hcr Hlen]. destruct (has needs_quote f) eqn:Eq.
  - rewrite (field_text_quoted f _ Eq).
    rewrite (@read_step _ _ _ _ (mk IN_QUOTED_FIELD "" fs));
      [| now destruct Hst as [-> | ->] | reflexivity].
    rewrite (in_quoted_run f "" fs true _ Hcr (length_nil_append f Hlen)).
    now apply read_step.
  - rewrite (field_text_plain f Eq). destruct f as [|c g].
    + cbn [String.append]. apply read_step; [|reflexivity].
      now destruct Hst as [-> | ->].
    + cbn [has] in Eq. apply orb_false_iff in Eq. destruct Eq as [Hc Hg].
      destruct (ordinary c Hc) as (Hd & Hqc & Hcr' & Hlf).
      destruct (shorter "" c g Hlen) as [Hlt Hlen'].
      cbn [String.append].
      rewrite (@read_step _ _ _ _ (mk IN_FIELD (String c "") fs)); [| | exact Hlf].
      2:{ apply start_char; [|exact Hc]. tauto. }
      rewrite (in_field_run g (String c "") fs _ Hg Hlen').
      apply read_step; [|reflexivity].
      unfold parse_process_char. cbn [pstate mk]. reflexivity.
Qed.

(** A field and the end of the line after it: the record is given. *)
Lemma field_then_eol st f fs pend T :
  st = START_FIELD \/ (st = START_RECORD /\ field_text f <> EmptyString) ->
  plain_field f ->
  read_lines (mk st "" fs) pend (field_text f ++ String LF T) =
  ((fs ++ [f]) :: fst (read_lines reset false T),
   snd (read_lines reset false T)).
Proof.
  intros Hst [Hcr Hlen]. destruct (has needs_quote f) eqn:Eq.
  - rewrite (field_text_quoted f _ Eq).
    rewrite (@read_step _ _ _ _ (mk IN_QUOTED_FIELD "" fs));
      [| now destruct Hst as [-> | [-> _]] | reflexivity].
    rewrite (in_quoted_run f "" fs true _ Hcr (length_nil_append f Hlen)).
    now rewrite (@read_step_emit _ _ _ (mk EAT_CRNL "" (fs ++ [f]))
                   (mk START_RECORD "" (fs ++ [f]))).
  - rewrite (field_text_plain f Eq) in *. destruct f as [|c g].
    + destruct Hst as [-> | [_ Hne]]; [|now destruct Hne].
      cbn [String.append].
      now rewrite (@read_step_emit _ _ _ (mk EAT_CRNL "" (fs ++ [""]))
                     (mk START_RECORD "" (fs ++ [""]))).
    + cbn [has] in Eq. apply orb_false_iff in Eq. destruct Eq as [Hc Hg].
      destruct (ordinary c Hc) as (Hd & Hqc & Hcr' & Hlf).
      destruct (shorter "" c g Hlen) as [Hlt Hlen'].
      cbn [String.append].
      rewrite (@read_step _ _ _ _ (mk IN_FIELD (String c "") fs)); [| | exact Hlf].
      2:{ apply start_char; [|exact Hc]. tauto. }
      rewrite (in_field_run g (String c "") fs _ Hg Hlen').
      now rewrite (@read_step_emit _ _ _
                     (mk EAT_CRNL "" (fs ++ [String c g]))
                     (mk START_RECORD "" (fs ++ [String c g]))).
Qed.

(** The fields of a record from the second on. *)
Lemma fields_then_eol l : forall fs pend T,
  l <> [] ->
  Forall plain_field l ->
  read_lines (mk START_FIELD "" fs) pend
    (Str.join "," (map field_text l) ++ String LF T) =
  ((fs ++ l) :: fst (read_lines reset false T), snd (read_lines reset false T)).
Proof.
  induction l as [|f l IH]; intros fs pend T Hne Hall; [easy|].
  inversion Hall as [|? ? Hf Hl]; subst. destruct l as [|f2 l].
  - cbn [map Str.join]. now apply field_then_eol; [left|].
  - cbn [map]. rewrite join_cons, append_assoc.
    change (("," ++ ?x) ++ ?y)%string with (String delimiter (x ++ y)).
    rewrite field_then_delim by auto.
    cbn [map] in IH. rewrite IH by easy.
    now rewrite <- app_assoc.
Qed.

Lemma field_text_empty f : field_text f = EmptyString -> f = EmptyString.
Proof.
  unfold field_text. destruct (has needs_quote f) eqn:E; [discriminate|].
  now rewrite (body_plain f E).
Qed.

(** One record. *)
Lemma record_then_eol r pend T :
  Forall plain_field r ->
  read_lines reset pend (rec_text r ++ String LF T) =
  (r :: fst (read_lines reset false T), snd (read_lines reset false T)).
Proof.
  intros Hall. change reset with (mk START_RECORD "" []).
  destruct r as [|f [|f2 l]].
  - cbn [rec_text map Str.join String.append].
    now rewrite (@read_step_emit _ _ _ (mk EAT_CRNL "" [])
                   (mk START_RECORD "" [])).
  - inversion Hall as [|? ? Hf _]; subst.
    unfold rec_text. cbn [map Str.join].
    destruct (field_text f) as [|c t] eqn:Et.
    + apply field_text_empty in Et. subst f. cbn [String.append].
      rewrite (@read_step _ _ _ _ (mk IN_QUOTED_FIELD "" []));
        [| reflexivity | reflexivity].
      rewrite (@read_step _ _ _ _ (mk QUOTE_IN_QUOTED_FIELD "" []));
        [| reflexivity | reflexivity].
      now rewrite (@read_step_emit _ _ _ (mk EAT_CRNL "" [""])
                     (mk START_RECORD "" [""])).
    + rewrite <- Et.
      rewrite (@field_then_eol START_RECORD f [] pend T); [reflexivity | | exact Hf].
      right. split; [reflexivity | now rewrite Et].
  - inversion Hall as [|? ? Hf Hl]; subst.
    assert (Hrec : rec_text (f :: f2 :: l) =
                   (field_text f ++
                    String delimiter (Str.join "," (map field_text (f2 :: l))))%string).
    { unfold rec_text. cbn [map]. rewrite join_cons.
      change ("," ++ ?x)%string with (String delimiter x).
      destruct (field_text f); reflexivity. }
    rewrite Hrec, append_assoc. cbn [String.append].
    rewrite field_then_delim by auto.
    now rewrite fields_then_eol.
Qed.

Lemma read_lines_text rows :
  Forall (Forall plain_field) rows ->
  read_lines reset false (lines_text rows) = (rows, false).
Proof.
  induction rows as [|r rows IH]; intros H; [reflexivity|].
  inversion H as [|? ? Hr Hrows]; subst.
  cbn [lines_text]. rewrite (@record_then_eol r false _ Hr), (IH Hrows).
  reflexivity.
Qed.

(** What [csv.writer] wrote, [csv.reader] reads back, when no field
    holds a carriage return or is larger than the limit. *)
Lemma reread_plain rows :
  Forall (Forall plain_field) rows -> reread rows = (rows, false).
Proof.
  intros H. unfold reread, reader.
  rewrite universal_newlines_rows; [now apply read_lines_text|].
  eapply Forall_impl; [|exact H]. intros r Hr.
  eapply Forall_impl; [|exact Hr]. now intros f [Hf _].
Qed.

End CsvFacts.

(** ** The rows of plain records *)

Lemma has_cr_string_of_uint d :
  Csv.has Csv.is_cr (NilEmpty.string_of_uint d) = false.
Proof.
  induction d; cbn [NilEmpty.string_of_uint Csv.has]; try reflexivity;
    exact IHd.
Qed.

Lemma has_cr_str n : Csv.has Csv.is_cr (Py.str n) = false.
Proof.
  unfold Py.str, NilZero.string_of_int.
  destruct (Z.to_int n) as [d|d]; unfold NilZero.string_of_uint;
    cbn [Csv.has Csv.is_cr]; destruct d; try reflexivity;
    apply has_cr_string_of_uint.
Qed.

Lemma plain_field_str n :
  (String.length (Py.str n) <= 4300)%nat -> Csv.plain_field (Py.str n).
Proof.
  intros H. split; [apply has_cr_str|].
  unfold Csv.field_size_limit. lia.
Qed.

Lemma plain_row_of r : plain_record r -> Forall Csv.plain_field (row_of r).
Proof.
  intros (Hb & Hk & Hc & Hs). unfold row_of, record_row.
  apply Forall_cons; [exact Hb|]. apply Forall_cons; [exact Hk|].
  apply Forall_cons; [now apply plain_field_str|].
  apply Forall_cons; [exact Hc | apply Forall_nil].
Qed.

(** The rows written for plain records are read back as written. *)
Lemma reread_records recs :
  Forall plain_record recs ->
  Csv.reread (map row_of recs) = (map row_of recs, false).
Proof.
  intros H. apply CsvFacts.reread_plain.
  induction H as [|r recs Hr _ IH]; constructor; [now apply plain_row_of | exact IH].
Qed.

(** ** The cache store *)

Lemma count_matching c (recs : list (string * item)) :
  List.length (filter (fun r => String.eqb (StorageClass (snd r)) c) recs) =
  count_occ string_dec (map (fun r => StorageClass (snd r)) recs) c.
Proof.
  induction recs as [|r recs IH]; [reflexivity|].
  cbn [filter map count_occ].
  destruct (string_dec (StorageClass (snd r)) c) as [E|E].
  - rewrite (proj2 (String.eqb_eq _ _) E). cbn [List.length]. now rewrite IH.
  - rewrite (proj2 (String.eqb_neq _ _) E). exact IH.
Qed.

Lemma read_rows_value_error sc rows : forall files e,
  read_rows sc rows files = Raise e -> exists msg, e = ValueError msg.
Proof.
  induction rows as [|r rows IH]; intros files e; cbn [read_rows];
    [discriminate|].
  destruct r as [|b [|k [|sz [|c [|x r]]]]];
    try (intros [= <-]; eexists; reflexivity).
  destruct (skipped sc c); [apply IH|].
  destruct (Py.int sz); [apply IH | intros [= <-]; eexists; reflexivity].
Qed.

(** C3, as amended. When [cache_files] refreshes the cache from a
    listing of N objects in which every response has its [Contents],
    no bucket name, key or storage class holds a carriage return or
    more characters than the reader takes in a field, and [str] writes
    every size with at most 4300 characters, and no storage class is
    asked for, then: the cache file is written with one row
    [[bucket, key, str(size), storage_class]] per object; the text
    written for these rows is read back, through the newline
    translation and [csv.reader], as the same rows; and [list_files]
    returns from them N pairs in the order of the listing, the pair of
    the object [(bucket, item)] being the path
    ['/' + bucket + '/' + key] and the size, which is the original
    integer after [str] and [int]. The storage class is not part of
    what is returned. *)
Theorem cache_round_trip_gives_paths_and_sizes
    (s : s3du) (w : world) (recs : list (string * item)) :
  cache_is_fresh s w = false ->
  Py.truthy (storage_class s) = false ->
  listed (fun b => s3_objects w b (prefix s)) (buckets_of s w) = Some recs ->
  Forall plain_record recs ->
  exists fs w1,
    cache_files (s, w) = (Ok tt, (s, w1)) /\
    cache w1 = Some (now w, map row_of recs) /\
    Csv.reread (map row_of recs) = (map row_of recs, false) /\
    list_files (s, reopen w1) = (Ok fs, (s, reopen w1)) /\
    fs = map entry_of recs /\
    List.length fs = List.length recs.
Proof.
  intros Hf Hsc Hl Hp.
  destruct (refresh_cache_eq s w Hl) as [out Hr].
  pose proof (reread_records Hp) as Hrr.
  exists (map entry_of recs), (updated (Some (now w, map row_of recs)) out w).
  split; [now rewrite cache_files_eq, Hf|].
  split; [reflexivity|]. split; [exact Hrr|].
  split; [|split; [reflexivity | apply length_map]].
  unfold reopen. cbn [updated cache stdout option_map fst snd].
  rewrite Hrr. cbn [fst].
  rewrite list_files_eq. cbn [updated cache].
  rewrite read_rows_row_of. do 3 f_equal.
  rewrite <- (filter_all recs) at 2. apply filter_ext.
  intros r. now rewrite skipped_no_filter.
Qed.

Lemma cache_round_trip_gives_paths_and_sizes_witness :
  exists fs w1,
    cache_files (sample_state None sample_world) =
    (Ok tt, (fst (sample_state None sample_world), w1)) /\
    cache w1 = Some (7200%Q, map row_of sample_records) /\
    Csv.reread (map row_of sample_records) = (map row_of sample_records, false) /\
    list_files (fst (sample_state None sample_world), reopen w1) =
    (Ok fs, (fst (sample_state None sample_world), reopen w1)) /\
    fs = [("/b/dir/a.txt", 10); ("/b/dir/b.txt", 20); ("/b/c.txt", 5)] /\
    List.length fs = 3%nat.
Proof.
  apply (@cache_round_trip_gives_paths_and_sizes
           (fst (sample_state None sample_world))
           (snd (sample_state None sample_world))
           sample_records eq_refl eq_refl eq_refl).
  repeat apply Forall_cons; try apply Forall_nil;
    (split; [|split; [|split]]);
    try (split; [reflexivity | vm_compute; discriminate]);
    cbn; lia.
Defined.

(** C3, as stated, fails: two objects that differ in their storage
    class only are written as different rows and read back as the same
    pair, so what is read back is not the written record field for
    field. *)
Lemma storage_class_is_not_read_back :
  let r1 := ("b", {| Key := "k"; Size := 1; StorageClass := "STANDARD" |}) in
  let r2 := ("b", {| Key := "k"; Size := 1; StorageClass := "GLACIER" |}) in
  row_of r1 <> row_of r2 /\
  read_rows None [row_of r1] [] = Ok [("/b/k", 1)] /\
  read_rows None [row_of r2] [] = Ok [("/b/k", 1)].
Proof. cbv zeta. split; [discriminate | split; reflexivity]. Qed.

(** A key with a carriage return is written in quotes with the
    carriage return in it, and read back with a line feed in its
    place: neither file is opened with [newline='']. *)
Example carriage_return_is_read_back_as_line_feed :
  let cr := String Csv.CR EmptyString in
  let lf := String Csv.LF EmptyString in
  Csv.reread [["b"; ("k" ++ cr ++ "x")%string; "1"; "STANDARD"]] =
  ([["b"; ("k" ++ lf ++ "x")%string; "1"; "STANDARD"]], false).
Proof. reflexivity. Qed.

(** C5. The cache is fresh exactly when the file exists, the time since
    its modification is less than 3600 seconds and no refresh is forced;
    [cache_files] then only prints a line and leaves the file as it is,
    and otherwise runs the listing. A file modified 10 seconds ago is
    fresh, one modified 7200 seconds ago is stale. *)
Theorem cache_fresh_within_the_hour
    (s : s3du) (w : world) (t : Q) (rows : list row) :
  (cache_is_fresh s w = true <->
   (exists mtime rows, cache w = Some (mtime, rows)
                       /\ (now w - mtime < 3600)%Q)
   /\ nocache s = false) /\
  cache_files (s, w) =
    (if cache_is_fresh s w
     then (Ok tt,
           (s, updated (cache w)
                 (stdout w ++ [("Using file list from cache: "
                                ++ csv_name s)%string]) w))
     else refresh_cache (s, w)) /\
  fresh false t (Some ((t - 10)%Q, rows)) = true /\
  fresh false t (Some ((t - 7200)%Q, rows)) = false.
Proof.
  split; [apply fresh_iff|].
  split; [apply cache_files_eq|].
  split; [apply fresh_after_10_seconds | apply stale_after_7200_seconds].
Qed.

(** C6. When the cache file holds the rows of a list of objects and a
    storage class of [STORAGE_CLASSES] is asked for, [list_files]
    returns the pairs of exactly the objects of that class, in order,
    and as many pairs as the class occurs among the objects. *)
Theorem list_files_filters_by_class
    (s : s3du) (w : world) (c : string) (mtime : Q)
    (recs : list (string * item)) :
  In c STORAGE_CLASSES ->
  storage_class s = Some c ->
  cache w = Some (mtime, map row_of recs) ->
  exists fs,
    list_files (s, w) = (Ok fs, (s, w)) /\
    fs = map entry_of
           (filter (fun r => String.eqb (StorageClass (snd r)) c) recs) /\
    List.length fs =
    count_occ string_dec (map (fun r => StorageClass (snd r)) recs) c.
Proof.
  intros Hc Hs Hw. eexists. split; [|split; [reflexivity|]].
  - rewrite list_files_eq, Hw, Hs, read_rows_row_of. do 3 f_equal.
    apply filter_ext. intros r. now rewrite skipped_class, negb_involutive.
  - now rewrite length_map, count_matching.
Qed.

Lemma list_files_filters_by_class_witness :
  let st := sample_state (Some "GLACIER")
              (updated (Some (7000%Q, map row_of sample_records)) []
                 sample_world) in
  exists fs,
    list_files st = (Ok fs, st) /\
    fs = [("/b/dir/b.txt", 20)] /\
    List.length fs = 1%nat.
Proof.
  exact (@list_files_filters_by_class
           (fst (sample_state (Some "GLACIER") sample_world))
           (snd (sample_state (Some "GLACIER")
                   (updated (Some (7000%Q, map row_of sample_records)) []
                      sample_world)))
           "GLACIER" 7000%Q sample_records
           (or_intror (or_intror (or_introl eq_refl))) eq_refl eq_refl).
Defined.

(** C8, as amended. On a cache file that the reader reads as rows
    whose size fields are ASCII text of at most 4300 characters,
    [list_files] raises, and then a [ValueError], exactly when some row
    has not four fields, or has four, is not skipped by the storage
    class asked for, and has a size that [int] rejects. In particular it
    returns when every row has four fields and an integer size. A row
    that the filter skips is not looked at further. *)
Theorem list_files_raises_on_bad_selected_rows
    (s : s3du) (w : world) (mtime : Q) (rows : list row) :
  cache w = Some (mtime, rows) ->
  Forall plain_size rows ->
  ((exists e, fst (list_files (s, w)) = Raise e) <->
   Exists (fun r => wrong_arity r \/
                    (skipped (storage_class s) (nth 3 r "") = false
                     /\ bad_size r)) rows) /\
  (forall e, fst (list_files (s, w)) = Raise e -> exists msg, e = ValueError msg) /\
  (Forall (fun r => ~ wrong_arity r /\ ~ bad_size r) rows ->
   exists fs, fst (list_files (s, w)) = Ok fs).
Proof.
  intros Hw _. rewrite list_files_eq, Hw. cbn [fst].
  split; [apply read_rows_raises|].
  split; [apply read_rows_value_error|].
  intros Hall.
  destruct (read_rows (storage_class s) rows []) as [fs|e] eqn:E; [eauto|].
  assert (Hex : exists e, read_rows (storage_class s) rows [] = Raise e) by eauto.
  apply read_rows_raises, Exists_exists in Hex.
  destruct Hex as (r & Hin & Hbad).
  rewrite Forall_forall in Hall. destruct (Hall r Hin) as [Ha Hb].
  tauto.
Qed.

Lemma list_files_raises_on_bad_selected_rows_witness :
  exists e,
    fst (list_files
           (sample_state None
              (updated (Some (0%Q, [["b"; "k"; "12a"; "STANDARD"]])) []
                 sample_world))) = Raise e.
Proof.
  assert (Hp : Forall plain_size [["b"; "k"; "12a"; "STANDARD"]]).
  { apply Forall_cons; [|apply Forall_nil].
    split; [reflexivity | cbn; lia]. }
  apply (proj1 (@list_files_raises_on_bad_selected_rows
                  (fst (sample_state None sample_world))
                  (snd (sample_state None
                          (updated (Some (0%Q, [["b"; "k"; "12a"; "STANDARD"]]))
                             [] sample_world)))
                  0%Q [["b"; "k"; "12a"; "STANDARD"]] eq_refl Hp)).
  apply Exists_cons_hd. right. split; reflexivity.
Defined.

(** C8, as stated, fails: with GLACIER asked for, a STANDARD row whose
    size is not an integer is skipped and [list_files] returns. *)
Lemma skipped_row_with_bad_size_is_accepted :
  let r := ["b"; "k"; "12a"; "STANDARD"] in
  bad_size r /\
  fst (list_files
         (sample_state (Some "GLACIER")
            (updated (Some (0%Q, [r])) [] sample_world))) = Ok [].
Proof. cbv zeta. split; reflexivity. Qed.

(** C10. No method changes the object, so [self.classes] is the empty
    set of [__init__] to the end of the run, whatever was listed; when
    [main] returns, the last line printed is the closing message with no
    class in it. *)
Theorem classes_stay_empty (a : args) (csv tmp : string) (w : world) :
  (forall st, fst (snd (cache_files st)) = fst st) /\
  (forall st, fst (snd (list_files st)) = fst st) /\
  (forall st, fst (snd (main st)) = fst st) /\
  classes (fst (snd (run a csv tmp w))) = [] /\
  (fst (run a csv tmp w) = Ok tt ->
   last (stdout (snd (snd (run a csv tmp w)))) ""
   = "Found objects of classes: .").
Proof.
  split; [apply keeps_self_cache_files|].
  split; [apply keeps_self_list_files|].
  split; [apply keeps_self_main|].
  unfold run. split.
  - now rewrite keeps_self_main.
  - destruct (main (init a csv tmp w)) as [r st'] eqn:E. cbn [fst snd].
    intros ->. rewrite (main_ok_last_line _ E).
    now apply closing_message_no_classes.
Qed.

Lemma classes_stay_empty_witness :
  let a := sample_args None in
  let r := run a "/home/user/.cache/s3du-cache.csv" "/tmp/s3du_0" sample_world in
  fst r = Ok tt /\
  last (stdout (snd (snd r))) "" = "Found objects of classes: .".
Proof.
  cbv zeta. split; [reflexivity|].
  apply (classes_stay_empty (sample_args None)
           "/home/user/.cache/s3du-cache.csv" "/tmp/s3du_0" sample_world).
  reflexivity.
Defined.

(** ** Further properties *)

(** The example of the specification: three files under the bucket
    [b] give the directory [''] with [b] in it, [dir] with two leaves in
    [b], and one leaf in [b]; the export nests the arrays in the same
    way, directories before files. *)
Theorem example_tree_and_export :
  let fs := [("/b/dir/a.txt", 10); ("/b/dir/b.txt", 20); ("/b/c.txt", 5)] in
  parse_list fs =
    Node [("", Node [("b", Node [("dir", Node [] [("a.txt", 10); ("b.txt", 20)])]
                            [("c.txt", 5)])]
                 [])]
         [] /\
  convert_tree 7200 (parse_list fs) =
    Ok [JInt 1; JInt 0;
        JObj [("timestamp", JInt 7200); ("progver", JStr "0.1");
              ("progname", JStr "s3du")];
        JArr [JObj [("name", JStr "S3")];
              JArr [JObj [("name", JStr "b")];
                    JArr [JObj [("name", JStr "dir")];
                          JObj [("name", JStr "a.txt"); ("dsize", JInt 10)];
                          JObj [("name", JStr "b.txt"); ("dsize", JInt 20)]];
                    JObj [("name", JStr "c.txt"); ("dsize", JInt 5)]]]].
Proof. split; reflexivity. Qed.

(** X2. The size field of the row written for an object reads back,
    through [int], as the size of the object. *)
Theorem written_size_reads_back (b : string) (it : item) :
  Py.int (nth 2 (record_row b it) "") = Some (Size it).
Proof. apply int_str. Qed.

(** X3. Splitting a path at its slashes loses nothing: at least one
    segment, no slash in a segment, and the segments joined by slashes
    are the path. *)
Theorem split_slash_inverts_join (path : string) :
  Str.split_slash path <> [] /\
  forallb no_slash (Str.split_slash path) = true /\
  Str.join "/" (Str.split_slash path) = path.
Proof.
  split; [apply split_slash_nonempty|].
  split; [apply split_slash_no_slash | apply join_split_slash].
Qed.

(** X4. When the cache is refreshed and the response for the first
    bucket has no [Contents], as for a bucket without objects,
    [cache_files] raises [KeyError] and leaves an empty cache file. *)
Theorem cache_files_raises_without_contents
    (s : s3du) (w : world) (b : string) (buckets : list string) :
  cache_is_fresh s w = false ->
  buckets_of s w = b :: buckets ->
  s3_objects w b (prefix s) = LastPage None ->
  fst (cache_files (s, w)) = Raise (KeyError "Contents") /\
  cache (snd (snd (cache_files (s, w)))) = Some (now w, []).
Proof.
  intros Hf Hb Ho.
  assert (E : exists out,
             cache_files (s, w) =
             (Raise (KeyError "Contents"),
              (s, updated (Some (now w, [])) out w))).
  { rewrite cache_files_eq, Hf. unfold refresh_cache.
    unfold bind at 1, the_world at 1. cbn [snd].
    unfold bind at 1.
    change (set_cache (Some (now w, [])) (s, w))
      with (Ok tt, (s, updated (Some (now w, [])) (stdout w) w)).
    unfold bind at 1. rewrite list_buckets_eq.
    change (buckets_of s (updated (Some (now w, [])) (stdout w) w))
      with (buckets_of s w).
    rewrite Hb. unfold bind at 1. cbn [write_buckets].
    unfold bind at 1, self at 1. cbn [fst].
    unfold bind at 1.
    destruct (verbose s); cbn [when].
    - rewrite print_eq. unfold bind at 1, the_world at 1. cbn [snd].
      unfold bind at 1. cbn [updated s3_objects]. rewrite Ho.
      eexists. reflexivity.
    - unfold ret at 1. unfold bind at 1, the_world at 1. cbn [snd].
      unfold bind at 1. cbn [updated s3_objects]. rewrite Ho.
      eexists. reflexivity. }
  destruct E as [out ->]. split; reflexivity.
Qed.

Lemma cache_files_raises_without_contents_witness :
  fst (cache_files (sample_state None empty_bucket_world))
  = Raise (KeyError "Contents") /\
  cache (snd (snd (cache_files (sample_state None empty_bucket_world))))
  = Some (7200%Q, []).
Proof.
  exact (@cache_files_raises_without_contents
           (fst (sample_state None empty_bucket_world))
           (snd (sample_state None empty_bucket_world))
           "b" [] eq_refl eq_refl eq_refl).
Defined.


(** ** What [parse_list] builds *)

Lemma files_at_fold q fs : forall t,
  files_at q (fold_left parse_step fs t) =
  files_at q t ++ map leaf_of (filter (fun f => chain_eqb q (chain_of f)) fs).
Proof.
  induction fs as [|[path size] fs IH]; intros t; cbn [fold_left filter map].
  - now rewrite app_nil_r.
  - rewrite IH, parse_step_add_file, files_at_add_file.
    unfold chain_of at 2. cbn [fst].
    destruct (chain_eqb q (fst (split_path path))); [|reflexivity].
    cbn [map]. now rewrite <- app_assoc.
Qed.

Lemma has_node_fold q fs : forall t,
  has_node q (fold_left parse_step fs t) =
  has_node q t || existsb (fun f => is_prefix q (chain_of f)) fs.
Proof.
  induction fs as [|[path size] fs IH]; intros t; cbn [fold_left existsb].
  - now rewrite orb_false_r.
  - rewrite IH, parse_step_add_file, has_node_add_file.
    unfold chain_of at 2. cbn [fst]. now rewrite orb_assoc.
Qed.

(** X1. The tree of [parse_list] holds, in the node at a directory
    chain, exactly the leaves of the pairs whose path has that chain
    before its last segment, in the order of the input; and it has a
    node exactly at the root and at the initial parts of these chains. *)
Theorem parse_list_leaf_lists (fs : list (string * Z)) (q : list string) :
  files_at q (parse_list fs) =
    map leaf_of (filter (fun f => chain_eqb q (chain_of f)) fs) /\
  has_node q (parse_list fs) =
    is_prefix q [] || existsb (fun f => is_prefix q (chain_of f)) fs.
Proof.
  unfold parse_list. rewrite files_at_fold, has_node_fold.
  now rewrite files_at_empty_node, has_node_empty_node.
Qed.

(** ** The order of the directories *)

Lemma keys_at_empty_node q : keys_at q empty_node = [].
Proof. destruct q; reflexivity. Qed.

Lemma keys_at_cons a q t :
  keys_at (a :: q) t =
  match dict_get a (dirs t) with Some c => keys_at q c | None => [] end.
Proof. unfold keys_at. simpl. now destruct (dict_get a (dirs t)). Qed.

Lemma dict_get_none_keys {V : Type} k (d : dict V) :
  dict_get k d = None <-> existsb (String.eqb k) (map fst d) = false.
Proof.
  induction d as [|[k' v'] d IH]; simpl; [easy|].
  destruct (String.eqb k k'); simpl; [easy | exact IH].
Qed.

Lemma dict_set_keys {V : Type} k (v : V) (d : dict V) :
  map fst (dict_set k v d) = add_key (map fst d) k.
Proof.
  unfold add_key. induction d as [|[k' v'] d IH]; simpl; [reflexivity|].
  destruct (String.eqb k k') eqn:E; simpl; [reflexivity|].
  rewrite IH. now destruct (existsb (String.eqb k) (map fst d)).
Qed.

Lemma keys_at_add_file p leaf : forall q t,
  keys_at q (add_file p leaf t) =
  match next_seg q p with
  | Some em => add_key (keys_at q t) em
  | None => keys_at q t
  end.
Proof.
  induction p as [|em p IH]; intros q t.
  - destruct q as [|a q]; [reflexivity|].
    simpl add_file. now rewrite !keys_at_cons.
  - destruct q as [|a q].
    + simpl add_file. unfold keys_at. cbn [get_node dirs next_seg].
      apply dict_set_keys.
    + simpl add_file. rewrite !keys_at_cons. simpl dirs at 1. cbn [next_seg].
      destruct (String.eqb a em) eqn:E.
      * apply String.eqb_eq in E. subst a.
        rewrite dict_get_set_same, IH.
        destruct (dict_get em (dirs t)); [reflexivity|].
        now rewrite keys_at_empty_node.
      * now rewrite dict_get_set_other.
Qed.

Lemma keys_at_fold q fs : forall t,
  keys_at q (fold_left parse_step fs t) = fold_left (see_dir q) fs (keys_at q t).
Proof.
  induction fs as [|[path size] fs IH]; intros t; cbn [fold_left];
    [reflexivity|].
  now rewrite IH, parse_step_add_file, keys_at_add_file.
Qed.

Lemma add_key_incl ks k : incl ks (add_key ks k) /\ In k (add_key ks k).
Proof.
  unfold add_key. destruct (existsb (String.eqb k) ks) eqn:E.
  - split; [apply incl_refl|]. apply existsb_exists in E.
    destruct E as (x & Hx & E). apply String.eqb_eq in E. now subst.
  - split; [apply incl_appl, incl_refl | apply in_or_app; right; now left].
Qed.

Lemma add_key_prefix ks k : exists tail, add_key ks k = ks ++ tail.
Proof.
  unfold add_key. destruct (existsb (String.eqb k) ks).
  - exists []. now rewrite app_nil_r.
  - now exists [k].
Qed.

Lemma add_key_NoDup ks k : NoDup ks -> NoDup (add_key ks k).
Proof.
  intros H. unfold add_key. destruct (existsb (String.eqb k) ks) eqn:E; [easy|].
  apply NoDup_app; [easy | repeat constructor; easy |].
  intros x Hx [<- | []].
  assert (Ht : existsb (String.eqb k) ks = true); [|congruence].
  apply existsb_exists. exists k. split; [easy | apply String.eqb_refl].
Qed.

(** X15. The directory names of a node of the tree of [parse_list] are
    collected by going through the input in order: each pair whose
    chain passes through the node names the next segment, and a name is
    put last the first time it is seen. So the names are in the order
    of their first occurrence, each once, and one step only appends. *)
Theorem parse_list_directory_order (fs : list (string * Z)) (q : list string) :
  keys_at q (parse_list fs) = fold_left (see_dir q) fs [] /\
  NoDup (keys_at q (parse_list fs)) /\
  (forall tr f, exists tail,
      keys_at q (parse_step tr f) = keys_at q tr ++ tail).
Proof.
  split; [|split].
  - unfold parse_list. now rewrite keys_at_fold, keys_at_empty_node.
  - unfold parse_list. rewrite keys_at_fold, keys_at_empty_node.
    generalize (NoDup_nil string). generalize (@nil string) as ks.
    induction fs as [|f fs IH]; intros ks Hks; cbn [fold_left]; [easy|].
    apply IH. unfold see_dir. destruct (next_seg q (chain_of f)); [|easy].
    now apply add_key_NoDup.
  - intros tr [path size]. rewrite parse_step_add_file, keys_at_add_file.
    destruct (next_seg q _); [apply add_key_prefix|].
    exists []. now rewrite app_nil_r.
Qed.


(** ** Directory names are unique *)

Lemma unique_dirs_children_get ds k c :
  fold_right (fun kv rest => let '(_, v) := kv in unique_dirs v /\ rest) True ds ->
  dict_get k ds = Some c -> unique_dirs c.
Proof.
  induction ds as [|[k' v'] ds IH]; simpl; [discriminate|].
  intros [Hv Hrest]. destruct (String.eqb k k'); [now intros [= <-] | now apply IH].
Qed.

Lemma unique_dirs_children_set ds k v :
  fold_right (fun kv rest => let '(_, v) := kv in unique_dirs v /\ rest) True ds ->
  unique_dirs v ->
  fold_right (fun kv rest => let '(_, v) := kv in unique_dirs v /\ rest) True
    (dict_set k v ds).
Proof.
  intros Hds Hv. induction ds as [|[k' v'] ds IH]; simpl; [easy|].
  destruct Hds as [Hv' Hrest]. destruct (String.eqb k k'); simpl; auto.
Qed.

Lemma unique_dirs_add_file p leaf : forall t,
  unique_dirs t -> unique_dirs (add_file p leaf t).
Proof.
  induction p as [|em p IH]; intros [ds fs] [Hnd Hch]; [easy|].
  cbn [add_file dirs files unique_dirs]. split.
  - rewrite dict_set_keys. now apply add_key_NoDup.
  - apply unique_dirs_children_set; [easy|]. apply IH.
    destruct (dict_get em ds) as [c|] eqn:E.
    + now apply (unique_dirs_children_get ds em).
    + split; [constructor | exact I].
Qed.

(** Under unique names a dictionary holds a pair exactly when the
    look-up of the name gives the value. *)
Lemma dict_get_iff_In {V : Type} (d : dict V) k v :
  NoDup (map fst d) -> (dict_get k d = Some v <-> In (k, v) d).
Proof.
  intros Hnd. split; [apply dict_get_In|].
  induction d as [|[k' v'] d IH]; simpl; [easy|].
  inversion Hnd as [|? ? Hnotin Hnd']; subst.
  intros [[= -> ->] | Hin].
  - now rewrite String.eqb_refl.
  - destruct (String.eqb k k') eqn:E; [|now apply IH].
    apply String.eqb_eq in E. subst k'.
    exfalso. apply Hnotin. now apply (in_map fst d (k, v)).
Qed.

(** X5. In the tree of [parse_list] no node has two directories of the
    same name, and one insertion keeps it so: the dictionary of a node
    is a map, and the look-up of a name finds the one directory of that
    name. *)
Theorem parse_list_unique_directory_names (fs : list (string * Z)) :
  unique_dirs (parse_list fs) /\
  (forall tr f, unique_dirs tr -> unique_dirs (parse_step tr f)) /\
  (forall q n k v,
      get_node q (parse_list fs) = Some n ->
      (dict_get k (dirs n) = Some v <-> In (k, v) (dirs n))).
Proof.
  assert (Hstep : forall tr f, unique_dirs tr -> unique_dirs (parse_step tr f)).
  { intros tr [path size] H. rewrite parse_step_add_file.
    now apply unique_dirs_add_file. }
  assert (Hall : unique_dirs (parse_list fs)).
  { unfold parse_list.
    assert (H0 : unique_dirs empty_node) by (split; [constructor | exact I]).
    revert H0. generalize empty_node as t.
    induction fs as [|f fs IH]; intros t Ht; cbn [fold_left]; auto. }
  split; [exact Hall | split; [exact Hstep|]].
  intros q. generalize (parse_list fs) Hall. clear.
  induction q as [|a q IH]; intros t Ht n k v; cbn [get_node].
  - intros [= <-]. destruct t as [ds fs]. destruct Ht as [Hnd _].
    now apply dict_get_iff_In.
  - destruct t as [ds fs]. destruct Ht as [_ Hch]. cbn [dirs].
    destruct (dict_get a ds) as [c|] eqn:E; [|discriminate].
    apply IH. now apply (unique_dirs_children_get ds a).
Qed.

(** ** File names under distinct paths *)

Lemma split_path_inj p1 p2 : split_path p1 = split_path p2 -> p1 = p2.
Proof.
  intros H.
  rewrite <- (join_split_slash p1), <- (join_split_slash p2).
  now rewrite <- !split_path_segments, H.
Qed.

(** X6. When no path occurs twice in the input, no node of the tree of
    [parse_list] has two leaves of the same name. *)
Theorem distinct_paths_give_distinct_names
    (fs : list (string * Z)) (q : list string) :
  NoDup (map fst fs) ->
  NoDup (map fst (files_at q (parse_list fs))).
Proof.
  intros Hnd. unfold parse_list.
  rewrite files_at_fold, files_at_empty_node. cbn [app].
  induction fs as [|[path size] fs IH]; cbn [filter map]; [constructor|].
  inversion Hnd as [|? ? Hnotin Hnd']; subst. specialize (IH Hnd').
  destruct (chain_eqb q (chain_of (path, size))) eqn:E; [|exact IH].
  cbn [map]. constructor; [|exact IH].
  intros Hin. apply Hnotin.
  rewrite map_map in Hin. apply in_map_iff in Hin.
  destruct Hin as ([path' size'] & Hname & Hin').
  apply filter_In in Hin'. destruct Hin' as [Hin' E'].
  apply chain_eqb_eq in E, E'. unfold leaf_of, chain_of in *. cbn [fst snd] in *.
  assert (path' = path).
  { apply split_path_inj.
    rewrite (surjective_pairing (split_path path')),
            (surjective_pairing (split_path path)).
    congruence. }
  subst path'. now apply (in_map fst fs (path, size')).
Qed.

Lemma distinct_paths_give_distinct_names_witness :
  NoDup (map fst (files_at [""; "b"; "dir"]
                    (parse_list [("/b/dir/a.txt", 10); ("/b/dir/b.txt", 20);
                                 ("/b/c.txt", 5)]))).
Proof.
  apply (distinct_paths_give_distinct_names
           [("/b/dir/a.txt", 10); ("/b/dir/b.txt", 20); ("/b/c.txt", 5)]
           [""; "b"; "dir"]).
  repeat constructor; simpl; intuition discriminate.
Defined.

(** ** A key that ends in a slash *)

Lemma split_slash_app_slash p :
  Str.split_slash (p ++ "/") = Str.split_slash p ++ [EmptyString].
Proof.
  induction p as [|c p IH]; [reflexivity|].
  cbn [String.append Str.split_slash]. rewrite IH.
  destruct (Ascii.eqb c "/"); [reflexivity|].
  destruct (Str.split_slash p) as [|seg segs] eqn:E; [|reflexivity].
  now apply split_slash_nonempty in E.
Qed.

(** X14. A path that ends in a slash, as the key of an S3 folder marker
    does, has the empty string as its file name and every segment
    before the slash as a directory: the pair is stored as a leaf
    without a name in the directory of that name, and exported there
    as ["(unnamed)"]. *)
Theorem trailing_slash_gives_unnamed_leaf
    (tr : tree) (p : string) (size : Z) :
  split_path (p ++ "/") = (Str.split_slash p, EmptyString) /\
  files_at (Str.split_slash p) (parse_step tr ((p ++ "/")%string, size)) =
    files_at (Str.split_slash p) tr ++ [(EmptyString, size)] /\
  leaf_obj (EmptyString, size) =
    JObj [("name", JStr "(unnamed)"); ("dsize", JInt size)].
Proof.
  assert (H : split_path (p ++ "/") = (Str.split_slash p, EmptyString)).
  { unfold split_path. rewrite split_slash_app_slash.
    now rewrite removelast_last, last_last. }
  split; [exact H | split; [|reflexivity]].
  rewrite parse_step_add_file, files_at_add_file, H. cbn [fst snd].
  now rewrite chain_eqb_refl.
Qed.


(** ** Sizes add up *)






Lemma dsize_total_leaf_obj f : dsize_total (leaf_obj f) = snd f.
Proof. reflexivity. Qed.





(** ** Absolute paths *)

(** With absolute paths only, the tree is empty or has the one
    directory [''] at its root and nothing else there. *)
Lemma absolute_fold fs : forall t,
  Forall (fun f => Str.startswith_slash (fst f) = true) fs ->
  (t = empty_node \/ exists root, t = Node [(EmptyString, root)] []) ->
  fold_left parse_step fs t = t /\ fs = [] \/
  exists root, fold_left parse_step fs t = Node [(EmptyString, root)] [].
Proof.
  induction fs as [|[path size] fs IH]; intros t Hall Ht; cbn [fold_left].
  - now left.
  - right. inversion Hall as [|? ? Hp Hall']; subst. cbn [fst] in Hp.
    destruct (split_path_absolute path Hp) as [chain Hchain].
    assert (Hstep : exists root,
               parse_step t (path, size) = Node [(EmptyString, root)] []).
    { rewrite parse_step_add_file, Hchain.
      destruct Ht as [-> | [root ->]]; eexists; reflexivity. }
    destruct Hstep as [root Hroot]. rewrite Hroot.
    destruct (IH (Node [(EmptyString, root)] []) Hall') as [[-> _] | H];
      eauto.
Qed.

Lemma absolute_parse_list fs :
  fs <> [] ->
  Forall (fun f => Str.startswith_slash (fst f) = true) fs ->
  exists root, parse_list fs = Node [(EmptyString, root)] [].
Proof.
  intros Hne Hall. unfold parse_list.
  destruct (@absolute_fold fs empty_node Hall (or_introl eq_refl))
    as [[_ ->] | H]; auto.
  now destruct Hne.
Qed.




(** ** What [list_files] returns *)

Lemma read_rows_absolute sc rows : forall acc fs,
  read_rows sc rows acc = Ok fs ->
  Forall (fun f => Str.startswith_slash (fst f) = true) acc ->
  Forall (fun f => Str.startswith_slash (fst f) = true) fs.
Proof.
  induction rows as [|r rows IH]; intros acc fs; cbn [read_rows].
  - now intros [= <-].
  - destruct r as [|b [|k [|sz [|c [|x r]]]]]; try discriminate.
    destruct (skipped sc c); [apply IH|].
    destruct (Py.int sz) as [n|]; [|discriminate].
    intros H Hacc. apply (IH _ _ H).
    apply Forall_app. split; [exact Hacc|]. repeat constructor.
Qed.



(** X16. On a cache file that holds the rows written for a list of
    objects, [list_files] never raises, whatever storage class is asked
    for: it returns the pairs of all the objects when none or the empty
    string is asked for, and otherwise the pairs of the objects of just
    that class, be it one of [STORAGE_CLASSES] or not. It leaves the
    world as it is. *)
Theorem list_files_selects_written_rows
    (s : s3du) (w : world) (mtime : Q) (recs : list (string * item)) :
  cache w = Some (mtime, map row_of recs) ->
  list_files (s, w) =
  (Ok (map entry_of
         (filter (fun r => match storage_class s with
                           | Some (String _ _ as c) =>
                               String.eqb c (StorageClass (snd r))
                           | _ => true
                           end) recs)),
   (s, w)).
Proof.
  intros Hw. rewrite list_files_eq, Hw, read_rows_row_of. do 3 f_equal.
  apply filter_ext. intros r. unfold skipped.
  destruct (storage_class s) as [[|a c]|]; cbn [Py.truthy andb negb];
    try reflexivity.
  apply negb_involutive.
Qed.

Lemma list_files_selects_written_rows_witness :
  let st := sample_state (Some "")
              (updated (Some (7000%Q, map row_of sample_records)) []
                 sample_world) in
  list_files st =
  (Ok [("/b/dir/a.txt", 10); ("/b/dir/b.txt", 20); ("/b/c.txt", 5)], st).
Proof.
  exact (@list_files_selects_written_rows
           (fst (sample_state (Some "") sample_world))
           (snd (sample_state (Some "")
                   (updated (Some (7000%Q, map row_of sample_records)) []
                      sample_world)))
           7000%Q sample_records eq_refl).
Defined.

(** ** What the methods keep *)

Lemma preserves_ret {A : Type} P (a : A) : preserves P (ret a).
Proof. now intros st. Qed.

Lemma preserves_raise {A : Type} P e : preserves P (@raise A e).
Proof. now intros st. Qed.

Lemma preserves_lift {A : Type} P (r : result A) : preserves P (lift r).
Proof. now intros st. Qed.

Lemma preserves_self P : preserves P self.
Proof. now intros st. Qed.

Lemma preserves_the_world P : preserves P the_world.
Proof. now intros st. Qed.

Lemma preserves_bind {A B : Type} P (m : M A) (k : A -> M B) :
  preserves P m -> (forall a, preserves P (k a)) -> preserves P (bind m k).
Proof.
  intros Hm Hk st HP. unfold bind. specialize (Hm st HP).
  destruct (m st) as [[a|e] st1]; cbn [snd] in *; [|exact Hm].
  now apply Hk.
Qed.

Create HintDb preserves discriminated.

#[local] Hint Resolve preserves_ret preserves_raise preserves_lift
  preserves_self preserves_the_world : preserves.

Ltac preserves :=
  repeat first
    [ progress auto with preserves
    | apply preserves_bind; [| intro]
    | match goal with
      | |- preserves _ (match ?x with _ => _ end) => destruct x
      | |- preserves _ (if ?b then _ else _) => destruct b
      end ].

Section Listing.

Variable P : state -> Prop.
Hypothesis P_print : forall line, preserves P (print line).
Hypothesis P_writerow : forall r, preserves P (writerow r).

Lemma preserves_when b m : preserves P m -> preserves P (when b m).
Proof. intros H. unfold when. preserves. Qed.

Lemma preserves_write_items b items : forall count,
  preserves P (write_items b items count).
Proof. induction items; intros count; cbn [write_items]; preserves. Qed.

Lemma preserves_get_contents c : preserves P (get_contents c).
Proof. unfold get_contents. preserves. Qed.

Lemma preserves_write_pages b uri pages : forall count,
  preserves P (write_pages b uri pages count).
Proof.
  induction pages; intros count; cbn [write_pages];
    repeat first
      [ apply P_print
      | apply preserves_when
      | apply preserves_write_items
      | apply preserves_get_contents
      | apply IHpages
      | progress auto with preserves
      | apply preserves_bind; [| intro] ].
Qed.

Lemma preserves_list_buckets : preserves P list_buckets.
Proof. unfold list_buckets. preserves. Qed.

Lemma preserves_write_buckets buckets : forall count,
  preserves P (write_buckets buckets count).
Proof.
  induction buckets; intros count; cbn [write_buckets];
    repeat first
      [ apply P_print
      | apply preserves_when
      | apply preserves_write_pages
      | apply IHbuckets
      | progress auto with preserves
      | apply preserves_bind; [| intro] ].
Qed.

End Listing.

Lemma stamped_print t line : preserves (stamped t) (print line).
Proof. intros [s w] H. exact H. Qed.

Lemma stamped_writerow t r : preserves (stamped t) (writerow r).
Proof.
  intros [s w] [Hnow [rows Hc]]. cbn [snd] in *.
  rewrite (writerow_eq r s w Hc). split; [exact Hnow | now eexists].
Qed.

(** Whatever the listing does, a refresh leaves a cache file written at
    the time of the call. *)
Lemma refresh_cache_stamps s w : stamped (now w) (snd (refresh_cache (s, w))).
Proof.
  change (refresh_cache (s, w))
    with ((buckets <- list_buckets ;; _ <- write_buckets buckets 0 ;; ret tt)
            (s, updated (Some (now w, [])) (stdout w) w)).
  assert (Hrest : preserves (stamped (now w))
                    (buckets <- list_buckets ;;
                     _ <- write_buckets buckets 0 ;; ret tt)).
  { apply preserves_bind; [apply preserves_list_buckets|].
    intros buckets. apply preserves_bind; [|intro; apply preserves_ret].
    apply preserves_write_buckets;
      [apply stamped_print | apply stamped_writerow]. }
  apply Hrest. split; [reflexivity | now eexists].
Qed.


(** ** After [cache_files] *)

Lemma fresh_when_just_written t t' rows :
  (t' - t < 3600)%Q -> fresh false t' (Some (t, rows)) = true.
Proof.
  intros H. apply fresh_iff. split; [|reflexivity]. now exists t, rows.
Qed.

(** X9. A refresh that stops at a response without [Contents] leaves
    the cache file it was writing, and that file counts as fresh at
    every time less than 3600 seconds after the call: with no refresh
    forced, a [cache_files] at such a time only prints that the cache
    is used and does not list again. *)
Theorem stopped_refresh_leaves_a_fresh_cache (s : s3du) (w : world) (t' : Q) :
  nocache s = false ->
  fst (cache_files (s, w)) = Raise (KeyError "Contents") ->
  (t' - now w < 3600)%Q ->
  fresh (nocache s) t' (cache (snd (snd (cache_files (s, w))))) = true /\
  cache_files (s, later t' (snd (snd (cache_files (s, w))))) =
    print ("Using file list from cache: " ++ csv_name s)%string
      (s, later t' (snd (snd (cache_files (s, w))))).
Proof.
  intros Hn Hr Ht.
  assert (H1 : fresh (nocache s) t' (cache (snd (snd (cache_files (s, w)))))
               = true).
  { rewrite cache_files_eq in *. destruct (cache_is_fresh s w) eqn:E.
    - rewrite print_eq in Hr. discriminate.
    - destruct (refresh_cache_stamps s w) as [_ [rows Hc]].
      rewrite Hc, Hn. now apply fresh_when_just_written. }
  split; [exact H1|].
  rewrite (cache_files_eq s (later t' _)).
  unfold cache_is_fresh. cbn [later now cache]. now rewrite H1, print_eq.
Qed.

Lemma stopped_refresh_leaves_a_fresh_cache_witness :
  let st := sample_state None empty_bucket_world in
  fresh false 9000 (cache (snd (snd (cache_files st)))) = true /\
  cache_files (fst st, later 9000 (snd (snd (cache_files st)))) =
    print "Using file list from cache: /home/user/.cache/s3du-cache.csv"
      (fst st, later 9000 (snd (snd (cache_files st)))).
Proof.
  cbv zeta.
  apply (@stopped_refresh_leaves_a_fresh_cache
           (fst (sample_state None empty_bucket_world))
           (snd (sample_state None empty_bucket_world)) 9000
           eq_refl eq_refl).
  reflexivity.
Defined.

(** ** What [cache_files] touches *)

Lemma updated_self w : updated (cache w) (stdout w) w = w.
Proof. now destruct w. Qed.

Lemma frame_print s w line : preserves (cache_and_stdout_of s w) (print line).
Proof.
  intros [s1 w1] (c & out & [= -> ->]). rewrite print_eq.
  now exists c, (out ++ [line]).
Qed.

Lemma frame_set_cache s w c :
  preserves (cache_and_stdout_of s w) (set_cache c).
Proof.
  intros [s1 w1] (c1 & out & [= -> ->]). now exists c, out.
Qed.

Lemma frame_writerow s w r : preserves (cache_and_stdout_of s w) (writerow r).
Proof.
  intros [s1 w1] (c & out & [= -> ->]).
  unfold writerow, bind, the_world. cbn [fst snd updated cache].
  destruct c as [[mtime rows]|]; now eexists _, out.
Qed.

(** [cache_files] changes the cache file and prints, and nothing else. *)
Lemma cache_files_frame s w :
  exists c out, snd (cache_files (s, w)) = (s, updated c out w).
Proof.
  assert (H : preserves (cache_and_stdout_of s w) cache_files).
  { unfold cache_files, refresh_cache.
    repeat first
      [ apply frame_print
      | apply frame_set_cache
      | apply preserves_list_buckets
      | apply preserves_write_buckets;
          [intro; apply frame_print | intro; apply frame_writerow]
      | progress auto with preserves
      | apply preserves_bind; [| intro]
      | match goal with
        | |- preserves _ (if ?b then _ else _) => destruct b
        end ]. }
  apply (H (s, w)). exists (cache w), (stdout w). now rewrite updated_self.
Qed.

(** ** The steps of [main] after the listing *)

Lemma main_run s w w1 fs ncdu :
  cache_files (s, w) = (Ok tt, (s, w1)) ->
  fst (list_files (s, w1)) = Ok fs ->
  convert_tree (Py.int_of_time (now w1)) (parse_list fs) = Ok ncdu ->
  main (s, w) =
  if ncdu_installed w1
  then (Ok tt,
        (s, world_with (cache w1) (stdout w1 ++ [closing_message s])
              (if keep_file s then JsonFile ncdu else Absent) w1))
  else (Raise (FileNotFoundError "ncdu"),
        (s, world_with (cache w1) (stdout w1) (JsonFile ncdu) w1)).
Proof.
  intros Hc Hl Ht. unfold main.
  unfold bind at 1. rewrite Hc.
  unfold bind at 1. rewrite list_files_eq in *. cbn [fst] in Hl. rewrite Hl.
  unfold bind at 1, the_world at 1. cbn [snd].
  unfold bind at 1, lift at 1. rewrite Ht.
  unfold bind at 1.
  change (set_out_file (JsonFile ncdu) (s, w1))
    with (Ok tt, (s, world_with (cache w1) (stdout w1) (JsonFile ncdu) w1)).
  unfold bind at 1, run_ncdu, bind at 1, the_world at 1.
  cbn [snd world_with ncdu_installed].
  destruct (ncdu_installed w1); [|reflexivity].
  unfold ret at 1. unfold bind at 1, self at 1. cbn [fst].
  unfold bind at 1. destruct (keep_file s); reflexivity.
Qed.


(** [main], step by step. *)
Lemma main_cases s w :
  main (s, w) =
  match cache_files (s, w) with
  | (Raise e, st1) => (Raise e, st1)
  | (Ok _, (s1, w1)) =>
      match fst (list_files (s1, w1)) with
      | Raise e => (Raise e, (s1, w1))
      | Ok fs =>
          match convert_tree (Py.int_of_time (now w1)) (parse_list fs) with
          | Raise e => (Raise e, (s1, w1))
          | Ok ncdu =>
              if ncdu_installed w1
              then (Ok tt,
                    (s1, world_with (cache w1)
                           (stdout w1 ++ [closing_message s1])
                           (if keep_file s1 then JsonFile ncdu else Absent) w1))
              else (Raise (FileNotFoundError "ncdu"),
                    (s1, world_with (cache w1) (stdout w1) (JsonFile ncdu) w1))
          end
      end
  end.
Proof.
  unfold main. unfold bind at 1.
  destruct (cache_files (s, w)) as [[[]|e] [s1 w1]]; [|reflexivity].
  unfold bind at 1. rewrite list_files_eq. cbn [fst].
  destruct (match cache w1 with
            | Some (_, rows) => read_rows (storage_class s1) rows []
            | None => Raise (FileNotFoundError (csv_name s1))
            end) as [fs|e]; [|reflexivity].
  unfold bind at 1, the_world at 1. cbn [snd].
  unfold bind at 1, lift at 1.
  destruct (convert_tree (Py.int_of_time (now w1)) (parse_list fs))
    as [ncdu|e]; [|reflexivity].
  unfold bind at 1.
  change (set_out_file (JsonFile ncdu) (s1, w1))
    with (Ok tt, (s1, world_with (cache w1) (stdout w1) (JsonFile ncdu) w1)).
  unfold bind at 1, run_ncdu, bind at 1, the_world at 1.
  cbn [snd world_with ncdu_installed].
  destruct (ncdu_installed w1); [|reflexivity].
  unfold ret at 1. unfold bind at 1, self at 1. cbn [fst].
  unfold bind at 1. destruct (keep_file s1); reflexivity.
Qed.

Lemma convert_tree_of_listed s w fs t :
  fst (list_files (s, w)) = Ok fs ->
  fs <> [] ->
  exists ncdu, convert_tree t (parse_list fs) = Ok ncdu.
Proof.
  rewrite list_files_eq. cbn [fst].
  destruct (cache w) as [[mtime rows]|]; [|discriminate].
  intros H Hne. apply read_rows_absolute in H; [|constructor].
  destruct (absolute_parse_list Hne H) as [root ->]. now eexists.
Qed.


(** X11. [main] returns only if [cache_files] returned, [list_files]
    then returned at least one pair, and ncdu could be started. *)
Theorem main_returns_only_if (s : s3du) (w : world) :
  fst (main (s, w)) = Ok tt ->
  fst (cache_files (s, w)) = Ok tt /\
  (exists fs, fst (list_files (snd (cache_files (s, w)))) = Ok fs /\ fs <> []) /\
  ncdu_installed w = true.
Proof.
  rewrite main_cases.
  destruct (cache_files_frame s w) as (c & out & Hf).
  destruct (cache_files (s, w)) as [[[]|e] [s1 w1]]; cbn [fst snd] in *;
    [|discriminate].
  injection Hf as -> ->. cbn [updated ncdu_installed now].
  destruct (fst (list_files (s, updated c out w))) as [fs|e] eqn:El;
    [|discriminate].
  destruct fs as [|f fs].
  { change (parse_list []) with empty_node. cbn [convert_tree dirs dict_get fst].
    discriminate. }
  destruct (convert_tree_of_listed s (updated c out w)
              (Py.int_of_time (now w)) El) as [ncdu ->]; [discriminate|].
  destruct (ncdu_installed w); cbn [fst]; [|discriminate].
  intros _. split; [reflexivity|].
  split; [|reflexivity]. exists (f :: fs). now split.
Qed.

Lemma main_returns_only_if_witness :
  let st := sample_state None sample_world in
  fst (cache_files st) = Ok tt /\
  (exists fs, fst (list_files (snd (cache_files st))) = Ok fs /\ fs <> []) /\
  ncdu_installed (snd st) = true.
Proof.
  cbv zeta.
  exact (@main_returns_only_if (fst (sample_state None sample_world))
           (snd (sample_state None sample_world)) eq_refl).
Defined.

(** X12. When a run returns, the output file holds the export of this
    run, which is [convert_tree] of the pairs [list_files] returned,
    exactly when a file name was given on the command line, the empty
    name included, for which the file is the temporary one; with no name
    given the temporary file is removed. *)
Theorem output_file_kept_iff_named (a : args) (csv tmp : string) (w : world) :
  fst (run a csv tmp w) = Ok tt ->
  exists fs ncdu,
    fst (list_files (snd (cache_files (init a csv tmp w)))) = Ok fs /\
    convert_tree (Py.int_of_time (now w)) (parse_list fs) = Ok ncdu /\
    out_file (snd (snd (run a csv tmp w))) =
      match arg_filename a with
      | Some _ => JsonFile ncdu
      | None => Absent
      end /\
    filename (fst (snd (run a csv tmp w))) =
      match arg_filename a with
      | Some (String _ _ as f) => f
      | _ => tmp
      end.
Proof.
  unfold run. intros H.
  pose proof (keeps_self_main (init a csv tmp w)) as Hs.
  destruct (init a csv tmp w) as [s0 w0] eqn:Ei.
  assert (Hk : keep_file s0 =
               match arg_filename a with Some _ => true | None => false end)
    by (injection Ei as <- _; reflexivity).
  assert (Hname : filename s0 =
                  match arg_filename a with
                  | Some (String _ _ as f) => f
                  | _ => tmp
                  end).
  { injection Ei as <- _. cbn [filename].
    now destruct (arg_filename a) as [[|c f]|]. }
  assert (Hnow : now w0 = now w) by (injection Ei as _ <-; reflexivity).
  cbn [fst] in Hs. rewrite Hs, Hname.
  rewrite main_cases in *.
  destruct (cache_files_frame s0 w0) as (c & out & Hf).
  destruct (cache_files (s0, w0)) as [[[]|e] [s1 w1]]; [|discriminate].
  cbn [snd] in Hf. injection Hf as -> ->.
  cbn [snd updated now ncdu_installed] in *. rewrite Hnow in *.
  destruct (fst (list_files (s0, updated c out w0))) as [fs|e]; [|discriminate].
  destruct (convert_tree (Py.int_of_time (now w)) (parse_list fs))
    as [ncdu|e] eqn:Et; [|discriminate].
  destruct (ncdu_installed w0); [|discriminate].
  exists fs, ncdu. split; [reflexivity|]. split; [exact Et|].
  split; [|reflexivity].
  cbn [snd world_with out_file]. rewrite Hk.
  now destruct (arg_filename a).
Qed.

Lemma output_file_kept_iff_named_witness :
  let r := run named_args "/home/user/.cache/s3du-cache.csv"
             "/tmp/s3du_0" sample_world in
  exists ncdu,
    convert_tree 7200
      (parse_list [("/b/dir/a.txt", 10); ("/b/dir/b.txt", 20); ("/b/c.txt", 5)])
    = Ok ncdu /\
    out_file (snd (snd r)) = JsonFile ncdu /\
    filename (fst (snd r)) = "out.json".
Proof.
  cbv zeta.
  destruct (@output_file_kept_iff_named named_args
              "/home/user/.cache/s3du-cache.csv" "/tmp/s3du_0" sample_world
              eq_refl) as (fs & ncdu & H1 & H2 & H3 & H4).
  injection H1 as <-.
  exists ncdu. split; [exact H2 | split; [exact H3 | exact H4]].
Defined.

(** ** The prefix *)

Lemma endswith_slash_app q : Str.endswith_slash (q ++ "/") = true.
Proof.
  induction q as [|c q IH]; [reflexivity|].
  cbn [String.append Str.endswith_slash]. rewrite IH.
  now destruct (q ++ "/")%string.
Qed.

(** X13. The prefix of the object is empty when no prefix or the empty
    one was given, and otherwise the given prefix with a slash put
    after it unless it ends in one: it is empty or ends in a slash, and
    a prefix given with and without its final slash lists the same
    keys. *)
Theorem init_prefix_ends_in_slash (a : args) (csv tmp : string) (w : world) :
  let p := prefix (fst (init a csv tmp w)) in
  p = match arg_prefix a with
      | Some (String _ _ as q) => if Str.endswith_slash q then q else (q ++ "/")%string
      | _ => EmptyString
      end /\
  (p = EmptyString \/ Str.endswith_slash p = true).
Proof.
  cbv zeta. cbn [init fst prefix].
  destruct (arg_prefix a) as [[|c q]|]; cbn [Py.truthy andb]; auto.
  destruct (Str.endswith_slash (String c q)) eqn:E; cbn [negb].
  - auto.
  - split; [reflexivity|]. right. apply endswith_slash_app.
Qed.

(** ** One bucket *)

(** X17. With a bucket named on the command line, a refresh lists that
    bucket only, whatever buckets the account has, and follows its pages
    to the last: the cache file then holds one row per object of the
    pages, in order, each with that bucket in its first field. *)
Theorem refresh_lists_the_named_bucket
    (s : s3du) (w : world) (b : string) (items : list item) :
  bucket s = Some b ->
  b <> EmptyString ->
  cache_is_fresh s w = false ->
  page_items (s3_objects w b (prefix s)) = Some items ->
  exists out,
    cache_files (s, w) =
    (Ok tt, (s, updated (Some (now w, map (record_row b) items)) out w)).
Proof.
  intros Hb Hne Hf Hp. rewrite cache_files_eq, Hf.
  assert (Hl : listed (fun b => s3_objects w b (prefix s)) (buckets_of s w)
               = Some (map (pair b) items)).
  { unfold buckets_of. rewrite Hb. destruct b; [easy|].
    cbn [Py.truthy listed]. now rewrite Hp, app_nil_r. }
  destruct (refresh_cache_eq s w Hl) as [out ->].
  exists out. now rewrite map_map.
Qed.



Lemma refresh_lists_the_named_bucket_witness :
  exists out,
    cache_files (init bucket_args "/home/user/.cache/s3du-cache.csv"
                   "/tmp/s3du_0" sample_world) =
    (Ok tt,
     (fst (init bucket_args "/home/user/.cache/s3du-cache.csv" "/tmp/s3du_0"
             sample_world),
      updated (Some (7200%Q, map (record_row "b") sample_items)) out
        (snd (init bucket_args "/home/user/.cache/s3du-cache.csv"
                "/tmp/s3du_0" sample_world)))).
Proof.
  apply (@refresh_lists_the_named_bucket
           (fst (init bucket_args "/home/user/.cache/s3du-cache.csv"
                   "/tmp/s3du_0" sample_world))
           (snd (init bucket_args "/home/user/.cache/s3du-cache.csv"
                   "/tmp/s3du_0" sample_world))
           "b" sample_items eq_refl);
    [discriminate | reflexivity | reflexivity].
Defined.

(** ** What [main] never does *)

(** X18. When [main] raises, nothing is printed after the lines of
    [cache_files]: the closing message is not printed. *)
Theorem failed_main_prints_no_closing_message
    (s : s3du) (w : world) (e : exn) :
  fst (main (s, w)) = Raise e ->
  stdout (snd (snd (main (s, w)))) = stdout (snd (snd (cache_files (s, w)))).
Proof.
  rewrite main_cases.
  destruct (cache_files (s, w)) as [[[]|e1] [s1 w1]]; [|easy].
  destruct (fst (list_files (s1, w1))) as [fs|e1]; [|easy].
  destruct (convert_tree (Py.int_of_time (now w1)) (parse_list fs))
    as [ncdu|e1]; [|easy].
  destruct (ncdu_installed w1); [discriminate | reflexivity].
Qed.

Lemma failed_main_prints_no_closing_message_witness :
  let st := sample_state (Some "DEEP_ARCHIVE") sample_world in
  fst (main st) = Raise (KeyError "") /\
  stdout (snd (snd (main st))) = stdout (snd (snd (cache_files st))).
Proof.
  cbv zeta. split; [reflexivity|].
  exact (@failed_main_prints_no_closing_message
           (fst (sample_state (Some "DEEP_ARCHIVE") sample_world))
           (snd (sample_state (Some "DEEP_ARCHIVE") sample_world))
           (KeyError "") eq_refl).
Defined.

(** X19. When no output file name is given and the run raises, the
    temporary file is not removed: it is left empty, as [mkstemp]
    created it, or holding the export. *)
Theorem failed_run_leaves_the_temporary_file
    (a : args) (csv tmp : string) (w : world) (e : exn) :
  Py.truthy (arg_filename a) = false ->
  fst (run a csv tmp w) = Raise e ->
  out_file (snd (snd (run a csv tmp w))) = EmptyFile \/
  exists ncdu, out_file (snd (snd (run a csv tmp w))) = JsonFile ncdu.
Proof.
  unfold run. intros Hf.
  destruct (init a csv tmp w) as [s0 w0] eqn:Ei.
  assert (Hout : out_file w0 = EmptyFile).
  { injection Ei as _ <-. cbn [out_file]. now rewrite Hf. }
  rewrite main_cases.
  destruct (cache_files_frame s0 w0) as (c & out & Hfr).
  destruct (cache_files (s0, w0)) as [[[]|e1] [s1 w1]]; cbn [snd] in Hfr;
    injection Hfr as -> ->; [|now left].
  destruct (fst (list_files (s0, updated c out w0))) as [fs|e1]; [|now left].
  destruct (convert_tree _ (parse_list fs)) as [ncdu|e1]; [|now left].
  cbn [updated ncdu_installed].
  destruct (ncdu_installed w0); [discriminate|].
  intros _. right. now exists ncdu.
Qed.

Lemma failed_run_leaves_the_temporary_file_witness :
  let r := run (sample_args (Some "DEEP_ARCHIVE"))
             "/home/user/.cache/s3du-cache.csv" "/tmp/s3du_0" sample_world in
  fst r = Raise (KeyError "") /\
  (out_file (snd (snd r)) = EmptyFile \/
   exists ncdu, out_file (snd (snd r)) = JsonFile ncdu).
Proof.
  cbv zeta. split; [reflexivity|].
  exact (@failed_run_leaves_the_temporary_file
           (sample_args (Some "DEEP_ARCHIVE"))
           "/home/user/.cache/s3du-cache.csv" "/tmp/s3du_0" sample_world
           (KeyError "") eq_refl eq_refl).
Defined.

(** X20. [list_files] raises the [FileNotFoundError] of the cache file
    exactly when there is no cache file, and raises no other
    [FileNotFoundError]. *)
Theorem list_files_needs_the_cache_file (s : s3du) (w : world) :
  (fst (list_files (s, w)) = Raise (FileNotFoundError (csv_name s))
   <-> cache w = None) /\
  (forall path, fst (list_files (s, w)) = Raise (FileNotFoundError path) ->
                path = csv_name s).
Proof.
  rewrite list_files_eq. cbn [fst].
  destruct (cache w) as [[mtime rows]|].
  - split; [split; [|discriminate]|]; intros; exfalso;
      match goal with
      | H : read_rows _ _ _ = Raise _ |- _ =>
          apply read_rows_value_error in H; now destruct H as [msg [=]]
      end.
  - split; [now split|]. now intros path [= <-].
Qed.



(** ** What the reader yields *)

(** X22. Rows whose fields hold no carriage return and are not larger
    than the reader's field limit are read back from the text the
    writer wrote as they were written, and the reader raises nothing:
    commas, quote characters and line feeds in a field come back
    unchanged. *)
Theorem plain_rows_are_read_back_as_written (rows : list row) :
  Forall (Forall Csv.plain_field) rows ->
  Csv.reader (Csv.rows_text rows) = (rows, false).
Proof. apply CsvFacts.reread_plain. Qed.

Lemma plain_rows_are_read_back_as_written_witness :
  let lf := String Csv.LF EmptyString in
  let q := String Csv.quotechar EmptyString in
  let rows := [["b"; ("a,b" ++ q ++ lf ++ " c")%string; "1"; ""]; [""]; []] in
  Csv.reader (Csv.rows_text rows) = (rows, false).
Proof.
  cbv zeta.
  apply plain_rows_are_read_back_as_written.
  repeat apply Forall_cons; try apply Forall_nil;
    (split; [reflexivity | vm_compute; discriminate]).
Defined.

Module ReaderFacts.

Import Csv.

Lemma universal_newlines_no_cr s :
  has is_cr (universal_newlines s) = false.
Proof.
  enough (H : has is_cr (universal_newlines s) = false /\
              forall c, has is_cr (universal_newlines (String c s)) = false)
    by apply H.
  induction s as [|a s [IH1 IH2]].
  - split; [reflexivity|]. intros c. cbn [universal_newlines].
    destruct (Ascii.eqb c CR) eqn:E; cbn [has]; unfold is_cr;
      [reflexivity | now rewrite E].
  - split; [apply IH2|]. intros c.
    change (universal_newlines (String c (String a s)))
      with (if Ascii.eqb c CR
            then String LF (if Ascii.eqb a LF then universal_newlines s
                            else universal_newlines (String a s))
            else String c (universal_newlines (String a s))).
    destruct (Ascii.eqb c CR) eqn:E; cbn [has].
    + destruct (Ascii.eqb a LF); [exact IH1 | apply IH2].
    + unfold is_cr at 1. rewrite E. apply IH2.
Qed.

Lemma clean_reset : clean reset.
Proof. split; [reflexivity | constructor]. Qed.

Lemma clean_goto st p : clean p -> clean (goto st p).
Proof. now intros H. Qed.

Lemma clean_save p : clean p -> clean (parse_save_field p).
Proof.
  intros [H1 H2]. split; [reflexivity|].
  cbn [parse_save_field fields]. apply Forall_app. split; [exact H2|].
  now constructor.
Qed.

Lemma clean_add p c p' :
  clean p -> is_cr c = false -> parse_add_char p c = Some p' -> clean p'.
Proof.
  intros [H1 H2] Hc. unfold parse_add_char.
  destruct (field_size_limit <=? _)%N; [discriminate|]. intros [= <-].
  split; [|exact H2]. unfold no_cr in *. cbn [field].
  rewrite CsvFacts.has_append, H1. cbn [has]. now rewrite Hc.
Qed.

Lemma clean_add_goto st p c p' :
  clean p -> is_cr c = false ->
  option_map (goto st) (parse_add_char p c) = Some p' -> clean p'.
Proof.
  intros H Hc. destruct (parse_add_char p c) as [p1|] eqn:E; [|discriminate].
  intros [= <-]. apply clean_goto. exact (@clean_add _ _ _ H Hc E).
Qed.

Lemma clean_end_of_line p c : clean p -> clean (end_of_line p c).
Proof. intros H. apply clean_goto, clean_save, H. Qed.

Lemma clean_start_field p c p' :
  clean p -> (forall ch, c = Some ch -> is_cr ch = false) ->
  start_field p c = Some p' -> clean p'.
Proof.
  intros H Hc. unfold start_field. destruct c as [ch|].
  - destruct (is_newline ch);
      [intros [= <-]; now apply clean_end_of_line|].
    destruct (Ascii.eqb ch quotechar);
      [intros [= <-]; now apply clean_goto|].
    destruct (Ascii.eqb ch delimiter);
      [intros [= <-]; now apply clean_save|].
    apply clean_add_goto; auto.
  - intros [= <-]. now apply clean_end_of_line.
Qed.

Lemma clean_step p c p' :
  clean p -> (forall ch, c = Some ch -> is_cr ch = false) ->
  parse_process_char p c = Some p' -> clean p'.
Proof.
  intros H Hc. unfold parse_process_char.
  destruct (pstate p) eqn:Est.
  - destruct c as [ch|]; [|now intros [= <-]].
    destruct (is_newline ch); [intros [= <-]; now apply clean_goto|].
    apply clean_start_field; [now apply clean_goto | exact Hc].
  - now apply clean_start_field.
  - destruct c as [ch|]; [|intros [= <-]; now apply clean_end_of_line].
    destruct (is_newline ch); [intros [= <-]; now apply clean_end_of_line|].
    destruct (Ascii.eqb ch delimiter);
      [intros [= <-]; now apply clean_goto, clean_save|].
    intros E. exact (@clean_add _ _ _ H (Hc ch eq_refl) E).
  - destruct c as [ch|]; [|now intros [= <-]].
    destruct (Ascii.eqb ch quotechar); [intros [= <-]; now apply clean_goto|].
    intros E. exact (@clean_add _ _ _ H (Hc ch eq_refl) E).
  - destruct c as [ch|]; [|intros [= <-]; now apply clean_end_of_line].
    destruct (Ascii.eqb ch quotechar); [apply clean_add_goto; auto|].
    destruct (Ascii.eqb ch delimiter);
      [intros [= <-]; now apply clean_goto, clean_save|].
    destruct (is_newline ch); [intros [= <-]; now apply clean_end_of_line|].
    apply clean_add_goto; auto.
  - destruct c as [ch|]; [|intros [= <-]; now apply clean_goto].
    destruct (is_newline ch); [now intros [= <-] | discriminate].
Qed.

Lemma clean_end_of_input p : clean p -> Forall (Forall no_cr) (end_of_input p).
Proof.
  intros H. unfold end_of_input.
  destruct (at_start p); [constructor|].
  destruct (_ || _); [|constructor].
  constructor; [|constructor]. apply (@clean_save _ H).
Qed.

Lemma read_lines_no_cr text : forall p pending,
  has is_cr text = false -> clean p ->
  Forall (Forall no_cr) (fst (read_lines p pending text)).
Proof.
  induction text as [|c text IH]; intros p pending Ht Hp; cbn [read_lines].
  - destruct pending; [|now apply clean_end_of_input].
    destruct (parse_process_char p None) as [p'|] eqn:E; [|constructor].
    assert (Hp' : clean p') by (apply (@clean_step p None p' Hp); easy).
    destruct (at_start p'); cbn [fst];
      [constructor; [apply Hp' | constructor] | now apply clean_end_of_input].
  - cbn [has] in Ht. apply orb_false_iff in Ht. destruct Ht as [Hc Ht].
    destruct (parse_process_char p (Some c)) as [p1|] eqn:E1; [|constructor].
    assert (Hp1 : clean p1).
    { apply (@clean_step p (Some c) p1 Hp); [|exact E1]. now intros ch [= <-]. }
    destruct (Ascii.eqb c LF); [|now apply IH].
    destruct (parse_process_char p1 None) as [p2|] eqn:E2; [|constructor].
    assert (Hp2 : clean p2) by (apply (@clean_step p1 None p2 Hp1); easy).
    destruct (at_start p2); [|now apply IH].
    pose proof (IH reset false Ht clean_reset) as Hrows.
    destruct (read_lines reset false text) as [rows raised]. cbn [fst] in *.
    constructor; [apply Hp2 | exact Hrows].
Qed.

End ReaderFacts.

(** X23. No field that the reader yields holds a carriage return,
    whatever the text of the file: the file is not opened with
    [newline='']. So rows that are read back as they were written hold
    no carriage return. *)
Theorem rows_read_hold_no_carriage_return (text : string) (rows : list row) :
  Forall (Forall (fun f => Csv.has Csv.is_cr f = false))
         (fst (Csv.reader text)) /\
  (fst (Csv.reread rows) = rows ->
   Forall (Forall (fun f => Csv.has Csv.is_cr f = false)) rows).
Proof.
  assert (H : forall t,
             Forall (Forall (fun f => Csv.has Csv.is_cr f = false))
                    (fst (Csv.reader t))).
  { intros t. apply ReaderFacts.read_lines_no_cr.
    - apply ReaderFacts.universal_newlines_no_cr.
    - apply ReaderFacts.clean_reset. }
  split; [apply H|].
  intros E. rewrite <- E. apply H.
Qed.
